(** * JsonTreeViewer: the JSON value -> display tree conversion

    A shallow embedding of [UJsonTreeViewerWidget] (JsonTreeViewerWidget.cpp
    and JsonTreeViewerWidget.h): the display node [FTreeItem], the recursive
    conversion [ParseNode], the top level [BuildTree], the entry point
    [InitJsonTree] and the colour table [GetValueColorFromJsonType].

    The conversion is embedded twice.  The first embedding is by value: a
    display node is a finite tree and a [TArray] of nodes is a list.  The
    second ([Module Shared]) keeps the [TSharedPtr]s: nodes live in a store,
    [MakeShared] allocates, child arrays hold addresses and the assignments
    of the source copy addresses.  The second is what ownership properties
    are stated on; it is proved to read back to the first. *)

From Stdlib Require Import Floats.
From stdpp Require Import base list strings.

Set Warnings "-register-all".
Local Open Scope string_scope.
Local Open Scope list_scope.
Local Open Scope nat_scope.

(** ** The engine's JSON document model (Dom/JsonValue.h, Dom/JsonObject.h) *)

(** [enum class EJson]. *)
Inductive EJson : Set :=
| EJson_None | EJson_Null | EJson_String | EJson_Number
| EJson_Boolean | EJson_Array | EJson_Object.

#[global] Instance EJson_eq_dec : EqDecision EJson.
Proof. solve_decision. Defined.

(** [FJsonValue] and its subclasses.  A number carries the [double] that
    [TryGetNumber] yields.  An object's [Values] map is iterated in
    insertion order, so it is kept as an association list.  The first
    constructor stands for a value whose [Type] is [EJson::None], which
    the [default:] label of [ParseNode] is written for. *)
Inductive FJsonValue : Type :=
| FJsonValueNone
| FJsonValueNull
| FJsonValueString (Value : string)
| FJsonValueNumber (Value : float)
| FJsonValueBoolean (Value : bool)
| FJsonValueArray (Value : list FJsonValue)
| FJsonValueObject (Values : list (string * FJsonValue)).

(** [JsonValue->Type]. *)
Definition JsonType (JsonValue : FJsonValue) : EJson :=
  match JsonValue with
  | FJsonValueNone => EJson_None
  | FJsonValueNull => EJson_Null
  | FJsonValueString _ => EJson_String
  | FJsonValueNumber _ => EJson_Number
  | FJsonValueBoolean _ => EJson_Boolean
  | FJsonValueArray _ => EJson_Array
  | FJsonValueObject _ => EJson_Object
  end.

(** Induction on JSON values that reaches into arrays and objects. *)
Section FJsonValue_ind'.
Variable P : FJsonValue → Prop.
Hypothesis HNone : P FJsonValueNone.
Hypothesis HNull : P FJsonValueNull.
Hypothesis HString : ∀ s, P (FJsonValueString s).
Hypothesis HNumber : ∀ d, P (FJsonValueNumber d).
Hypothesis HBoolean : ∀ b, P (FJsonValueBoolean b).
Hypothesis HArray : ∀ a, Forall P a → P (FJsonValueArray a).
Hypothesis HObject :
  ∀ o, Forall (λ kv, P kv.2) o → P (FJsonValueObject o).

Fixpoint FJsonValue_ind' (v : FJsonValue) : P v :=
  match v with
  | FJsonValueNone => HNone
  | FJsonValueNull => HNull
  | FJsonValueString s => HString s
  | FJsonValueNumber d => HNumber d
  | FJsonValueBoolean b => HBoolean b
  | FJsonValueArray a =>
      HArray a
        ((fix go (l : list FJsonValue) : Forall P l :=
            match l with
            | [] => Forall_nil_2 P
            | x :: l' => Forall_cons_2 P x l' (FJsonValue_ind' x) (go l')
            end) a)
  | FJsonValueObject o =>
      HObject o
        ((fix go (l : list (string * FJsonValue))
            : Forall (λ kv, P kv.2) l :=
            match l with
            | [] => Forall_nil_2 _
            | kv :: l' =>
                Forall_cons_2 (λ kv, P kv.2) kv l'
                  (FJsonValue_ind' kv.2) (go l')
            end) o)
  end.
End FJsonValue_ind'.

(** ** The engine services the widget calls *)

(** [FLinearColor] and [FSlateColor] (a specified colour, or the rule
    "use the foreground colour" that [FSlateColor::UseForeground()] returns). *)
Record FLinearColor := { R : float; G : float; B : float; A : float }.

Inductive FSlateColor : Type :=
| UseColor_Specified (SpecifiedColor : FLinearColor)
| UseColor_Foreground.

(** What [FFileHelper::LoadFileToString(Result, Filename)] does to its
    out-parameter: on success [Result] holds the file's text; on failure it
    is untouched or holds what was read so far. *)
Inductive LoadResult : Type :=
| Loaded (Result : string)
| LoadFailed (Result : option string).

(** The host engine as the widget sees it: [FPaths::FileExists],
    [FFileHelper::LoadFileToString], [FString::SanitizeFloat], and the
    JSON reader.  [JsonText] is the JSON grammar: the document a text
    denotes, [None] for a text that is not JSON; the two overloads of
    [FJsonSerializer::Deserialize] that the widget calls are given on top
    of it. *)
Class Engine := {
  FileExists : string → bool;
  LoadFileToString : string → LoadResult;
  JsonText : string → option FJsonValue;
  SanitizeFloat : float → string
}.

(** [FJsonSerializer::Deserialize(Reader, TSharedPtr<FJsonObject>&)]:
    succeeds only when the root of the text is an object. *)
Definition Deserialize_Object `{Engine} (JsonString : string)
  : option (list (string * FJsonValue)) :=
  match JsonText JsonString with
  | Some (FJsonValueObject Values) => Some Values
  | _ => None
  end.

(** [FJsonSerializer::Deserialize(Reader, TSharedPtr<FJsonValue>&)]:
    wraps an object or array root, and fails on any other root. *)
Definition Deserialize_Value `{Engine} (JsonString : string)
  : option FJsonValue :=
  match JsonText JsonString with
  | Some (FJsonValueObject Values) => Some (FJsonValueObject Values)
  | Some (FJsonValueArray Value) => Some (FJsonValueArray Value)
  | _ => None
  end.

(** ** Display nodes, by value (JsonTreeViewerWidget.h) *)

(** [class FTreeItem]. *)
Inductive FTreeItem : Type := mkFTreeItem {
  Key : string;
  Value : string;
  ValueType : EJson;
  ChildItems : list FTreeItem
}.

(** [FTreeItem(EJson Type)]. *)
Definition FTreeItem_Type (Type_ : EJson) : FTreeItem :=
  mkFTreeItem EmptyString EmptyString Type_ [].

(** [FTreeItem(const FString& InKey, const FString& InValue, EJson InValueType)]. *)
Definition FTreeItem_KeyValue (InKey InValue : string) (InValueType : EJson)
  : FTreeItem :=
  mkFTreeItem InKey InValue InValueType [].

Definition set_Value (Node : FTreeItem) (v : string) : FTreeItem :=
  mkFTreeItem (Key Node) v (ValueType Node) (ChildItems Node).
Definition set_ValueType (Node : FTreeItem) (t : EJson) : FTreeItem :=
  mkFTreeItem (Key Node) (Value Node) t (ChildItems Node).
Definition set_ChildItems (Node : FTreeItem) (c : list FTreeItem) : FTreeItem :=
  mkFTreeItem (Key Node) (Value Node) (ValueType Node) c.

(** [TArray::Add] and [TArray::Append]. *)
Definition Add {T} (Array : list T) (Item : T) : list T := Array ++ [Item].
Definition Append {T} (Array Source : list T) : list T := Array ++ Source.

Section Conversion.
Context `{Engine}.

(** [UJsonTreeViewerWidget::ParseNode].  Each [for] loop is a left fold
    whose accumulator is the node being filled. *)
Fixpoint ParseNode (JsonValue : FJsonValue) : FTreeItem :=
  let Node := FTreeItem_Type (JsonType JsonValue) in
  match JsonValue with
  | FJsonValueObject Values =>
      fold_left
        (λ (Node : FTreeItem) (Pair : string * FJsonValue),
           let Parsed := ParseNode Pair.2 in
           let Child :=
             FTreeItem_KeyValue Pair.1 (Value Parsed) (ValueType Parsed) in
           let Child :=
             if 0 <? length (ChildItems Parsed)
             then set_ChildItems Child (ChildItems Parsed)
             else Child in
           set_ChildItems Node (Add (ChildItems Node) Child))
        Values Node
  | FJsonValueArray Array =>
      fold_left
        (λ (Node : FTreeItem) (Element : FJsonValue),
           let Parsed := ParseNode Element in
           if 0 <? length (ChildItems Parsed)
           then set_ChildItems Node (Append (ChildItems Node) (ChildItems Parsed))
           else set_ChildItems Node (Add (ChildItems Node) Parsed))
        Array Node
  | FJsonValueString s =>
      set_ValueType (set_Value Node s) EJson_String
  | FJsonValueNumber NumberValue =>
      set_ValueType (set_Value Node (SanitizeFloat NumberValue)) EJson_Number
  | FJsonValueBoolean BoolValue =>
      set_ValueType
        (set_Value Node (if BoolValue then "true" else "false"))
        EJson_Boolean
  | FJsonValueNull =>
      set_ValueType (set_Value Node "null") EJson_Null
  | FJsonValueNone => Node
  end.
End Conversion.

(** ** The widget (JsonTreeViewerWidget.h) *)

(** The members of [UJsonTreeViewerWidget] that the conversion and the
    colour table read or write.  [_JsonValue] is a [TSharedPtr], [None]
    when null. *)
Record UJsonTreeViewerWidget := mkWidget {
  _bValidJson : bool;
  _JsonFilePath : string;
  _JsonString : string;
  _JsonValue : option FJsonValue;
  _TreeItems : list FTreeItem;
  JsonInput : string;
  KeyColor : FSlateColor;
  KeyAtColor : FSlateColor;
  StringValueColor : FSlateColor;
  BooleanValueColor : FSlateColor;
  NumericValueColor : FSlateColor;
  NullValueColor : FSlateColor
}.

Definition set_bValidJson (this : UJsonTreeViewerWidget) (b : bool) :=
  mkWidget b (_JsonFilePath this) (_JsonString this) (_JsonValue this)
    (_TreeItems this) (JsonInput this) (KeyColor this) (KeyAtColor this)
    (StringValueColor this) (BooleanValueColor this) (NumericValueColor this)
    (NullValueColor this).
Definition set_JsonFilePath (this : UJsonTreeViewerWidget) (s : string) :=
  mkWidget (_bValidJson this) s (_JsonString this) (_JsonValue this)
    (_TreeItems this) (JsonInput this) (KeyColor this) (KeyAtColor this)
    (StringValueColor this) (BooleanValueColor this) (NumericValueColor this)
    (NullValueColor this).
Definition set_JsonString (this : UJsonTreeViewerWidget) (s : string) :=
  mkWidget (_bValidJson this) (_JsonFilePath this) s (_JsonValue this)
    (_TreeItems this) (JsonInput this) (KeyColor this) (KeyAtColor this)
    (StringValueColor this) (BooleanValueColor this) (NumericValueColor this)
    (NullValueColor this).
Definition set_JsonValue (this : UJsonTreeViewerWidget) (v : option FJsonValue) :=
  mkWidget (_bValidJson this) (_JsonFilePath this) (_JsonString this) v
    (_TreeItems this) (JsonInput this) (KeyColor this) (KeyAtColor this)
    (StringValueColor this) (BooleanValueColor this) (NumericValueColor this)
    (NullValueColor this).
Definition set_TreeItems (this : UJsonTreeViewerWidget) (l : list FTreeItem) :=
  mkWidget (_bValidJson this) (_JsonFilePath this) (_JsonString this)
    (_JsonValue this) l (JsonInput this) (KeyColor this) (KeyAtColor this)
    (StringValueColor this) (BooleanValueColor this) (NumericValueColor this)
    (NullValueColor this).
Definition set_JsonInput (this : UJsonTreeViewerWidget) (s : string) :=
  mkWidget (_bValidJson this) (_JsonFilePath this) (_JsonString this)
    (_JsonValue this) (_TreeItems this) s (KeyColor this) (KeyAtColor this)
    (StringValueColor this) (BooleanValueColor this) (NumericValueColor this)
    (NullValueColor this).

Section Widget.
Context `{Engine}.

(** [UJsonTreeViewerWidget::ReadJsonFile]: the result and the new
    contents of the out-parameter [JsonString]. *)
Definition ReadJsonFile (FilePath JsonString : string) : bool * string :=
  match LoadFileToString FilePath with
  | Loaded Result => (true, Result)
  | LoadFailed (Some Result) => (false, Result)
  | LoadFailed None => (false, JsonString)
  end.

(** [UJsonTreeViewerWidget::IsValidJson]. *)
Definition IsValidJson (JsonString : string) : bool :=
  match Deserialize_Object JsonString with
  | Some _ => true
  | None => false
  end.

(** [UJsonTreeViewerWidget::ParseJsonContents]: the result and the new
    contents of the out-parameter [OutJsonValue]. *)
Definition ParseJsonContents (JsonString : string)
    (OutJsonValue : option FJsonValue) : bool * option FJsonValue :=
  if IsValidJson JsonString then
    match Deserialize_Value JsonString with
    | Some v => (true, Some v)
    | None => (false, OutJsonValue)
    end
  else (false, OutJsonValue).

(** [UJsonTreeViewerWidget::BuildTree]. *)
Definition BuildTree (JsonValue : FJsonValue)
    (this : UJsonTreeViewerWidget) : UJsonTreeViewerWidget :=
  let this := set_TreeItems this [] in
  match JsonValue with
  | FJsonValueArray Array =>
      fold_left
        (λ (this : UJsonTreeViewerWidget) (Element : FJsonValue),
           set_TreeItems this (Add (_TreeItems this) (ParseNode Element)))
        Array this
  | FJsonValueObject Values =>
      fold_left
        (λ (this : UJsonTreeViewerWidget) (Pair : string * FJsonValue),
           let Parsed := ParseNode Pair.2 in
           let Row :=
             FTreeItem_KeyValue Pair.1 (Value Parsed) (ValueType Parsed) in
           let Row :=
             if 0 <? length (ChildItems Parsed)
             then set_ChildItems Row (ChildItems Parsed)
             else Row in
           set_TreeItems this (Add (_TreeItems this) Row))
        Values this
  | _ =>
      set_TreeItems this (Add (_TreeItems this) (ParseNode JsonValue))
  end.

(** [UJsonTreeViewerWidget::InitJsonTree]. *)
Definition InitJsonTree (JsonPathorString : string)
    (this : UJsonTreeViewerWidget) : UJsonTreeViewerWidget :=
  let this :=
    if FileExists JsonPathorString then
      let this := set_JsonInput this JsonPathorString in
      let this := set_JsonFilePath this JsonPathorString in
      let r := ReadJsonFile (_JsonFilePath this) (_JsonString this) in
      set_bValidJson (set_JsonString this r.2) r.1
    else if IsValidJson JsonPathorString then
      let this := set_JsonInput this JsonPathorString in
      let this := set_JsonString this JsonPathorString in
      set_bValidJson this true
    else set_bValidJson this false in
  if _bValidJson this then
    let r := ParseJsonContents (_JsonString this) (_JsonValue this) in
    let this := set_JsonValue this r.2 in
    match r.1, _JsonValue this with
    | true, Some JsonValue => BuildTree JsonValue this
    | _, _ => this
    end
  else this.
End Widget.

(** [UJsonTreeViewerWidget::GetValueColorFromJsonType]. *)
Definition GetValueColorFromJsonType (Type_ : EJson)
    (this : UJsonTreeViewerWidget) : FSlateColor :=
  match Type_ with
  | EJson_String => StringValueColor this
  | EJson_Number => NumericValueColor this
  | EJson_Boolean => BooleanValueColor this
  | EJson_Null => NullValueColor this
  | _ => UseColor_Foreground
  end.

(** ** Display nodes behind shared pointers *)

(** The same code with its [TSharedPtr<FTreeItem>]s kept: a node object
    lives in a store, a pointer is its address, [MakeShared] allocates at
    the end of the store and nothing is freed.  Every pointer the code
    dereferences comes from [MakeShared] or from a child array, so it is
    never null; [deref] of an address outside the store is a placeholder
    that no run reaches. *)
Module Shared.

(** A pointer is an address in the store. *)
Abbreviation addr := nat (only parsing).

(** [class FTreeItem], [ChildItems] being a [TArray<TSharedPtr<FTreeItem>>]. *)
Record FTreeItem := mkFTreeItem {
  Key : string;
  Value : string;
  ValueType : EJson;
  ChildItems : list addr
}.

Abbreviation Store := (list FTreeItem) (only parsing).

Definition FTreeItem_Type (Type_ : EJson) : FTreeItem :=
  mkFTreeItem EmptyString EmptyString Type_ [].

Definition FTreeItem_KeyValue (InKey InValue : string)
    (InValueType : EJson) : FTreeItem :=
  mkFTreeItem InKey InValue InValueType [].

Definition set_Value (Node : FTreeItem) (v : string) : FTreeItem :=
  mkFTreeItem (Key Node) v (ValueType Node) (ChildItems Node).
Definition set_ValueType (Node : FTreeItem) (t : EJson) : FTreeItem :=
  mkFTreeItem (Key Node) (Value Node) t (ChildItems Node).
Definition set_ChildItems (Node : FTreeItem) (c : list addr) : FTreeItem :=
  mkFTreeItem (Key Node) (Value Node) (ValueType Node) c.

(** [MakeShared<FTreeItem>(...)]. *)
Definition MakeShared (Item : FTreeItem) (σ : Store) : addr * Store :=
  (length σ, σ ++ [Item]).

(** [*p] *)
Definition deref (σ : Store) (p : addr) : FTreeItem :=
  default (FTreeItem_Type EJson_None) (σ !! p).

(** [p->member = ...], as an update of the object at [p]. *)
Definition update (p : addr) (f : FTreeItem → FTreeItem) (σ : Store)
  : Store :=
  alter f p σ.

Section Conversion.
Context `{Engine}.

(** [UJsonTreeViewerWidget::ParseNode]: the returned pointer and the
    store after the call. *)
Fixpoint ParseNode (JsonValue : FJsonValue) (σ : Store) : addr * Store :=
  let '(Node, σ) := MakeShared (FTreeItem_Type (JsonType JsonValue)) σ in
  match JsonValue with
  | FJsonValueObject Values =>
      (Node,
       fold_left
         (λ (σ : Store) (Pair : string * FJsonValue),
            let '(Parsed, σ) := ParseNode Pair.2 σ in
            let '(Child, σ) :=
              MakeShared
                (FTreeItem_KeyValue Pair.1 (Value (deref σ Parsed))
                   (ValueType (deref σ Parsed))) σ in
            let σ :=
              if 0 <? length (ChildItems (deref σ Parsed))
              then update Child
                     (λ c, set_ChildItems c (ChildItems (deref σ Parsed)))
                     σ
              else σ in
            update Node
              (λ n, set_ChildItems n (Add (ChildItems n) Child)) σ)
         Values σ)
  | FJsonValueArray Array =>
      (Node,
       fold_left
         (λ (σ : Store) (Element : FJsonValue),
            let '(Parsed, σ) := ParseNode Element σ in
            if 0 <? length (ChildItems (deref σ Parsed))
            then update Node
                   (λ n, set_ChildItems n
                           (Append (ChildItems n)
                              (ChildItems (deref σ Parsed)))) σ
            else update Node
                   (λ n, set_ChildItems n (Add (ChildItems n) Parsed)) σ)
         Array σ)
  | FJsonValueString s =>
      (Node,
       update Node (λ n, set_ValueType (set_Value n s) EJson_String) σ)
  | FJsonValueNumber NumberValue =>
      (Node,
       update Node
         (λ n, set_ValueType (set_Value n (SanitizeFloat NumberValue))
                 EJson_Number) σ)
  | FJsonValueBoolean BoolValue =>
      (Node,
       update Node
         (λ n, set_ValueType
                 (set_Value n (if BoolValue then "true" else "false"))
                 EJson_Boolean) σ)
  | FJsonValueNull =>
      (Node,
       update Node (λ n, set_ValueType (set_Value n "null") EJson_Null) σ)
  | FJsonValueNone => (Node, σ)
  end.

(** [UJsonTreeViewerWidget::BuildTree]: the new contents of
    [_TreeItems] and the store after the call. *)
Definition BuildTree (JsonValue : FJsonValue) (_TreeItems : list addr)
    (σ : Store) : list addr * Store :=
  let _TreeItems : list addr := [] in
  match JsonValue with
  | FJsonValueArray Array =>
      fold_left
        (λ (s : list addr * Store) (Element : FJsonValue),
           let '(Parsed, σ) := ParseNode Element s.2 in
           (Add s.1 Parsed, σ))
        Array (_TreeItems, σ)
  | FJsonValueObject Values =>
      fold_left
        (λ (s : list addr * Store) (Pair : string * FJsonValue),
           let '(Parsed, σ) := ParseNode Pair.2 s.2 in
           let '(Row, σ) :=
             MakeShared
               (FTreeItem_KeyValue Pair.1 (Value (deref σ Parsed))
                  (ValueType (deref σ Parsed))) σ in
           let σ :=
             if 0 <? length (ChildItems (deref σ Parsed))
             then update Row
                    (λ c, set_ChildItems c (ChildItems (deref σ Parsed)))
                    σ
             else σ in
           (Add s.1 Row, σ))
        Values (_TreeItems, σ)
  | _ =>
      let '(Parsed, σ) := ParseNode JsonValue σ in
      (Add _TreeItems Parsed, σ)
  end.
End Conversion.

End Shared.

(** [unfold fuel σ p] walks the store from [p] to depth [fuel].  It
    answers with the tree it saw, by value, and with the address of every
    node in the order of the walk: an address that the walk meets at two
    positions is listed twice.  It answers [None] when a pointer dangles
    or when the structure is deeper than [fuel], as a cyclic one is for
    every [fuel]. *)
Fixpoint unfold (fuel : nat) (σ : Shared.Store) (p : Shared.addr)
  : option (FTreeItem * list Shared.addr) :=
  match fuel with
  | O => None
  | S fuel =>
      match σ !! p with
      | None => None
      | Some n =>
          match mapM (unfold fuel σ) (Shared.ChildItems n) with
          | None => None
          | Some r =>
              Some (mkFTreeItem (Shared.Key n) (Shared.Value n)
                      (Shared.ValueType n) (r.*1),
                    p :: concat (r.*2))
          end
      end
  end.

(** The walk from each pointer of an array of pointers in turn. *)
Definition unfold_all (fuel : nat) (σ : Shared.Store)
    (ps : list Shared.addr) : option (list FTreeItem * list Shared.addr) :=
  match mapM (unfold fuel σ) ps with
  | None => None
  | Some r => Some (r.*1, concat (r.*2))
  end.

(** ** Reading a display tree *)

(** What one converted array element contributes to the node above it:
    its children when it has any, itself otherwise. *)
Definition spliced (Parsed : FTreeItem) : list FTreeItem :=
  match ChildItems Parsed with
  | [] => [Parsed]
  | Children => Children
  end.

(** The row an object member becomes, from its key and converted value. *)
Definition keyed (MemberKey : string) (Parsed : FTreeItem) : FTreeItem :=
  mkFTreeItem MemberKey (Value Parsed) (ValueType Parsed) (ChildItems Parsed).

(** All nodes of a display tree, the root first. *)
Fixpoint nodes (Item : FTreeItem) : list FTreeItem :=
  Item :: concat (map nodes (ChildItems Item)).

(** The shape of a display node: only object and array nodes, with no
    value text, have children. *)
Definition node_shape (Item : FTreeItem) : Prop :=
  (ChildItems Item ≠ [] →
     (ValueType Item = EJson_Object ∨ ValueType Item = EJson_Array)
     ∧ Value Item = EmptyString)
  ∧ (ValueType Item ∈
       [EJson_String; EJson_Number; EJson_Boolean; EJson_Null; EJson_None] →
     ChildItems Item = []).

(** The top-level rows of the tree of a document. *)
Definition top_level `{Engine} (JsonValue : FJsonValue) : list FTreeItem :=
  match JsonValue with
  | FJsonValueArray Array => map ParseNode Array
  | FJsonValueObject Values => map (λ kv, keyed kv.1 (ParseNode kv.2)) Values
  | _ => [ParseNode JsonValue]
  end.

(** The values that are a string, a number, a boolean or null. *)
Definition IsPrimitive (JsonValue : FJsonValue) : bool :=
  match JsonValue with
  | FJsonValueString _ | FJsonValueNumber _ | FJsonValueBoolean _
  | FJsonValueNull => true
  | _ => false
  end.

(** ** Reading the store, and what the loops maintain *)

(** [forest σ ps ts fp]: the walks from the pointers [ps] end, see the
    trees [ts] and visit the addresses [fp]. *)
Definition forest (σ : Shared.Store) (ps : list Shared.addr)
    (ts : list FTreeItem) (fp : list Shared.addr) : Prop :=
  ∃ fuel, unfold_all fuel σ ps = Some (ts, fp).

(** Every node of the tree has the shape [node_shape]. *)
Definition shaped (Item : FTreeItem) : Prop :=
  Forall node_shape (nodes Item).

Section Invariants.
Context `{Engine}.

(** The result [r] of a call started in store [σ]: the objects of [σ]
    are untouched, and the walk from the returned pointer sees [t]
    through new objects only, each of them once. *)
Definition fresh_tree (σ : Shared.Store) (r : Shared.addr * Shared.Store)
    (t : FTreeItem) : Prop :=
  length σ < length r.2
  ∧ (∀ a, a < length σ → r.2 !! a = σ !! a)
  ∧ ∃ fuel fp, unfold fuel r.2 r.1 = Some (t, fp)
               ∧ NoDup fp ∧ (∀ a, a ∈ fp → length σ ≤ a).

(** [ParseNode] on [v], from any store, leaves such a result, and the
    tree it leaves is the one computed by value. *)
Definition ParseNode_owns (v : FJsonValue) : Prop :=
  ∀ σ, fresh_tree σ (Shared.ParseNode v σ) (ParseNode v).

(** The state of a loop that fills the node at [n]: its object [N], the
    trees [ts] under it and their addresses [fp], all allocated after [n]. *)
Definition filling (σ : Shared.Store) (n : Shared.addr)
    (N : Shared.FTreeItem) (ts : list FTreeItem) : Prop :=
  σ !! n = Some N
  ∧ ∃ fp, forest σ (Shared.ChildItems N) ts fp
          ∧ NoDup fp ∧ (∀ a, a ∈ fp → n < a).

(** How a loop leaves the store it started in: the node keeps its key,
    value and type, and no other object of the start store changes. *)
Definition fills (σ σ' : Shared.Store) (n : Shared.addr)
    (N N' : Shared.FTreeItem) : Prop :=
  Shared.Key N' = Shared.Key N
  ∧ Shared.Value N' = Shared.Value N
  ∧ Shared.ValueType N' = Shared.ValueType N
  ∧ length σ ≤ length σ'
  ∧ (∀ a, a < length σ → a ≠ n → σ' !! a = σ !! a).

(** The body of the array loop of [ParseNode], for the node at [n]. *)
Definition array_body (n : Shared.addr) :=
  λ (σ : Shared.Store) (Element : FJsonValue),
    let '(Parsed, σ) := Shared.ParseNode Element σ in
    if 0 <? length (Shared.ChildItems (Shared.deref σ Parsed))
    then Shared.update n
           (λ n, Shared.set_ChildItems n
                   (Append (Shared.ChildItems n)
                      (Shared.ChildItems (Shared.deref σ Parsed)))) σ
    else Shared.update n
           (λ n, Shared.set_ChildItems n (Add (Shared.ChildItems n) Parsed))
           σ.

(** What both object loops do with one member: convert the value, make
    the keyed row, hand the converted node's children over to it. *)
Definition make_row (MemberKey : string) (MemberValue : FJsonValue)
    (σ : Shared.Store) : Shared.addr * Shared.Store :=
  let '(Parsed, σ) := Shared.ParseNode MemberValue σ in
  let '(Child, σ) :=
    Shared.MakeShared
      (Shared.FTreeItem_KeyValue MemberKey
         (Shared.Value (Shared.deref σ Parsed))
         (Shared.ValueType (Shared.deref σ Parsed))) σ in
  let σ :=
    if 0 <? length (Shared.ChildItems (Shared.deref σ Parsed))
    then Shared.update Child
           (λ c, Shared.set_ChildItems c
                   (Shared.ChildItems (Shared.deref σ Parsed))) σ
    else σ in
  (Child, σ).

(** The body of the object loop of [ParseNode], for the node at [n]. *)
Definition object_body (n : Shared.addr) :=
  λ (σ : Shared.Store) (Pair : string * FJsonValue),
    let '(Parsed, σ) := Shared.ParseNode Pair.2 σ in
    let '(Child, σ) :=
      Shared.MakeShared
        (Shared.FTreeItem_KeyValue Pair.1
           (Shared.Value (Shared.deref σ Parsed))
           (Shared.ValueType (Shared.deref σ Parsed))) σ in
    let σ :=
      if 0 <? length (Shared.ChildItems (Shared.deref σ Parsed))
      then Shared.update Child
             (λ c, Shared.set_ChildItems c
                     (Shared.ChildItems (Shared.deref σ Parsed))) σ
      else σ in
    Shared.update n
      (λ n, Shared.set_ChildItems n (Add (Shared.ChildItems n) Child)) σ.

(** The state [s] of a loop of [BuildTree] started in store [σ0]: the
    pointers collected so far own the trees [ts], made of objects newer
    than [σ0], and the objects of [σ0] are untouched. *)
Definition roots_own (σ0 : Shared.Store)
    (s : list Shared.addr * Shared.Store) (ts : list FTreeItem) : Prop :=
  length σ0 ≤ length s.2
  ∧ (∀ a, a < length σ0 → s.2 !! a = σ0 !! a)
  ∧ ∃ fp, forest s.2 s.1 ts fp
          ∧ NoDup fp ∧ (∀ a, a ∈ fp → length σ0 ≤ a).

(** The text [InitJsonTree] goes on with, for an input: the contents of
    the file when the input is the path of a file that can be read, the
    input itself when it is no file and [IsValidJson] accepts it. *)
Definition input_text (JsonPathorString : string) : option string :=
  if FileExists JsonPathorString then
    match LoadFileToString JsonPathorString with
    | Loaded Result => Some Result
    | LoadFailed _ => None
    end
  else if IsValidJson JsonPathorString then Some JsonPathorString
  else None.

(** The document [InitJsonTree] hands to [BuildTree], for an input:
    what [ParseJsonContents] makes of that text. *)
Definition parsed_input (JsonPathorString : string) : option FJsonValue :=
  match input_text JsonPathorString with
  | Some JsonString =>
      if IsValidJson JsonString then Deserialize_Value JsonString else None
  | None => None
  end.

End Invariants.

(** ** An engine to run the widget on *)

Definition dquote : string :=
  String (Ascii.Ascii false true false false false true false false)
    EmptyString.

(** The text [{"a":null,"b":[true,[42]]}]. *)
Definition demo_text : string :=
  "{" +:+ dquote +:+ "a" +:+ dquote +:+ ":null,"
      +:+ dquote +:+ "b" +:+ dquote +:+ ":[true,[42]]}".

Definition demo_document : FJsonValue :=
  FJsonValueObject
    [("a", FJsonValueNull);
     ("b", FJsonValueArray
             [FJsonValueBoolean true; FJsonValueArray [FJsonValueNumber 42]])].

(** Three files (one unreadable, one that is not JSON), a handful of JSON
    texts, and the renderings of the numbers that occur in them. *)
Definition demo_engine : Engine := {|
  FileExists s :=
    String.eqb s "tree.json" || String.eqb s "locked.json"
    || String.eqb s "broken.json";
  LoadFileToString s :=
    if String.eqb s "tree.json" then Loaded demo_text
    else if String.eqb s "broken.json" then Loaded "{"
    else LoadFailed None;
  JsonText s :=
    if String.eqb s "true" then Some (FJsonValueBoolean true)
    else if String.eqb s "null" then Some FJsonValueNull
    else if String.eqb s "42" then Some (FJsonValueNumber 42)
    else if String.eqb s "[null]" then Some (FJsonValueArray [FJsonValueNull])
    else if String.eqb s "{}" then Some (FJsonValueObject [])
    else if String.eqb s demo_text then Some demo_document
    else None;
  SanitizeFloat d :=
    if PrimFloat.eqb d 42 then "42.0"
    else if PrimFloat.eqb d 0 then "0.0"
    else "?"
|}.

(** A widget that has an earlier tree on display. *)
Definition demo_widget : UJsonTreeViewerWidget :=
  mkWidget true EmptyString "{}" (Some (FJsonValueObject []))
    [mkFTreeItem "old" "row" EJson_String []] "{}"
    UseColor_Foreground UseColor_Foreground
    (UseColor_Specified {| R := 1; G := 0; B := 0; A := 1 |})
    (UseColor_Specified {| R := 0; G := 1; B := 0; A := 1 |})
    (UseColor_Specified {| R := 0; G := 0; B := 1; A := 1 |})
    (UseColor_Specified {| R := 1; G := 1; B := 0; A := 1 |}).

(** A widget that has not displayed anything yet. *)
Definition blank_widget : UJsonTreeViewerWidget :=
  mkWidget false EmptyString EmptyString None [] EmptyString
    UseColor_Foreground UseColor_Foreground UseColor_Foreground
    UseColor_Foreground UseColor_Foreground UseColor_Foreground.

(** ** The rest of the widget *)

(** [UJsonTreeViewerWidget::GetChildren]: the new contents of the
    out-parameter [OutChildren]. *)
Definition GetChildren (Item : FTreeItem) (OutChildren : list FTreeItem)
  : list FTreeItem :=
  ChildItems Item.

(** [UJsonTreeViewerWidget::RebuildWidget], as far as the members go: it
    calls [InitJsonTree(JsonInput)]; the Slate widgets it then declares
    read [_TreeItems] and write no member that is modelled. *)
Definition RebuildWidget `{Engine} (this : UJsonTreeViewerWidget)
  : UJsonTreeViewerWidget :=
  InitJsonTree (JsonInput this) this.

(** [EVisibility]. *)
Inductive EVisibility : Set :=
| Visible | Collapsed | Hidden | HitTestInvisible | SelfHitTestInvisible.

(** [FString::IsEmpty] and [FString::Left]. *)
Definition IsEmpty (s : string) : bool :=
  match s with
  | EmptyString => true
  | String _ _ => false
  end.

Definition Left (s : string) (Count : nat) : string :=
  String.substring 0 Count s.

(** One text widget of a row, with the attributes [GenerateRow] sets from
    the item: visibility, text and, for the key and the value, colour.
    Font and padding, which do not depend on the item, are left out. *)
Record FTextSlot := mkTextSlot {
  Visibility : EVisibility;
  Text : string;
  ColorAndOpacity : option FSlateColor
}.

(** The three slots of the [SHorizontalBox] of a row: key, colon, value. *)
Record FTableRow := mkTableRow {
  KeySlot : FTextSlot;
  ColonSlot : FTextSlot;
  ValueSlot : FTextSlot
}.

(** [UJsonTreeViewerWidget::GenerateRow]. *)
Definition GenerateRow (Item : FTreeItem) (this : UJsonTreeViewerWidget)
  : FTableRow :=
  mkTableRow
    (mkTextSlot
       (if IsEmpty (Key Item) then Collapsed else Visible)
       (Key Item)
       (Some (if String.eqb (Left (Key Item) 1) "@"
              then KeyAtColor this else KeyColor this)))
    (mkTextSlot
       (if IsEmpty (Key Item) then Collapsed else Visible)
       ":"
       None)
    (mkTextSlot
       (if IsEmpty (Value Item) then Collapsed else Visible)
       (Value Item)
       (Some (GetValueColorFromJsonType (ValueType Item) this))).

(** ** Measures of documents and of display trees *)

(** The values whose conversion has no children: the scalars, a value of
    type none, and the array and the object without elements. *)
Definition IsChildless (JsonValue : FJsonValue) : bool :=
  match JsonValue with
  | FJsonValueArray (_ :: _) | FJsonValueObject (_ :: _) => false
  | _ => true
  end.

(** The rows without children of a display tree, in display order. *)
Fixpoint leaves (Item : FTreeItem) : list FTreeItem :=
  match ChildItems Item with
  | [] => [Item]
  | _ :: _ => concat (map leaves (ChildItems Item))
  end.

(** The value text and type of each childless value of a document, in
    document order. *)
Fixpoint atoms `{Engine} (JsonValue : FJsonValue) : list (string * EJson) :=
  match JsonValue with
  | FJsonValueNone => [(EmptyString, EJson_None)]
  | FJsonValueNull => [("null", EJson_Null)]
  | FJsonValueString s => [(s, EJson_String)]
  | FJsonValueNumber d => [(SanitizeFloat d, EJson_Number)]
  | FJsonValueBoolean b => [(if b then "true" else "false", EJson_Boolean)]
  | FJsonValueArray [] => [(EmptyString, EJson_Array)]
  | FJsonValueArray Array => concat (map atoms Array)
  | FJsonValueObject [] => [(EmptyString, EJson_Object)]
  | FJsonValueObject Values => concat (map (λ kv, atoms kv.2) Values)
  end.

(** The number of levels below a display node. *)
Fixpoint height (Item : FTreeItem) : nat :=
  match ChildItems Item with
  | [] => 0
  | _ :: _ => S (max_list (map height (ChildItems Item)))
  end.

(** The height a document asks for.  A scalar, a value of type none, the
    empty array and the empty object ask for none.  An object asks for
    one level more than the member value that asks for most.  An array
    asks for as much as the element that asks for most, and for one
    level at least when it has an element: it adds a level only above
    elements that all ask for none. *)
Fixpoint levels (JsonValue : FJsonValue) : nat :=
  match JsonValue with
  | FJsonValueArray Array => max_list (map (λ e, 1 `max` levels e) Array)
  | FJsonValueObject Values => max_list (map (λ kv, S (levels kv.2)) Values)
  | _ => 0
  end.

(** The keys of all object members of a document, at any depth. *)
Fixpoint member_keys (JsonValue : FJsonValue) : list string :=
  match JsonValue with
  | FJsonValueArray Array => concat (map member_keys Array)
  | FJsonValueObject Values =>
      concat (map (λ kv, kv.1 :: member_keys kv.2) Values)
  | _ => []
  end.

(** ** The conversion, equation by equation *)

Section ConversionFacts.
Context `{Engine}.

Lemma fold_Add_children (Values : list (string * FJsonValue)) Node :
  fold_left
    (λ (Node : FTreeItem) (Pair : string * FJsonValue),
       let Parsed := ParseNode Pair.2 in
       let Child :=
         FTreeItem_KeyValue Pair.1 (Value Parsed) (ValueType Parsed) in
       let Child :=
         if 0 <? length (ChildItems Parsed)
         then set_ChildItems Child (ChildItems Parsed)
         else Child in
       set_ChildItems Node (Add (ChildItems Node) Child))
    Values Node
  = set_ChildItems Node
      (ChildItems Node ++ map (λ kv, keyed kv.1 (ParseNode kv.2)) Values).
Proof.
  match goal with |- fold_left ?f _ _ = _ => set (body := f) end.
  revert Node. induction Values as [|[k v] Values IH]; intros Node.
  - simpl. rewrite app_nil_r. by destruct Node.
  - cbn [fold_left map]. rewrite IH. subst body.
    unfold set_ChildItems, Add, keyed, FTreeItem_KeyValue; simpl.
    rewrite <- app_assoc. simpl.
    by destruct (ChildItems (ParseNode v)).
Qed.

Lemma fold_Append_children (Array : list FJsonValue) Node :
  fold_left
    (λ (Node : FTreeItem) (Element : FJsonValue),
       let Parsed := ParseNode Element in
       if 0 <? length (ChildItems Parsed)
       then set_ChildItems Node (Append (ChildItems Node) (ChildItems Parsed))
       else set_ChildItems Node (Add (ChildItems Node) Parsed))
    Array Node
  = set_ChildItems Node
      (ChildItems Node ++ concat (map (λ e, spliced (ParseNode e)) Array)).
Proof.
  match goal with |- fold_left ?f _ _ = _ => set (body := f) end.
  revert Node. induction Array as [|e Array IH]; intros Node.
  - simpl. rewrite app_nil_r. by destruct Node.
  - cbn [fold_left map concat]. rewrite IH. subst body.
    unfold spliced, set_ChildItems, Add, Append; simpl.
    destruct (ChildItems (ParseNode e)); simpl;
      by rewrite <- app_assoc.
Qed.

Lemma ParseNode_Object Values :
  ParseNode (FJsonValueObject Values)
  = mkFTreeItem EmptyString EmptyString EJson_Object
      (map (λ kv, keyed kv.1 (ParseNode kv.2)) Values).
Proof. simpl. by rewrite fold_Add_children. Qed.

Lemma ParseNode_Array Array :
  ParseNode (FJsonValueArray Array)
  = mkFTreeItem EmptyString EmptyString EJson_Array
      (concat (map (λ e, spliced (ParseNode e)) Array)).
Proof. simpl. by rewrite fold_Append_children. Qed.

(** [BuildTree] writes [_TreeItems] and nothing else. *)
Lemma BuildTree_only_TreeItems v this :
  BuildTree v this = set_TreeItems this (_TreeItems (BuildTree v this)).
Proof.
  assert (∀ {X} (f : UJsonTreeViewerWidget → X → FTreeItem) (l : list X) w,
    fold_left (λ this x, set_TreeItems this (Add (_TreeItems this) (f this x)))
      l w
    = set_TreeItems w
        (_TreeItems
           (fold_left
              (λ this x,
                 set_TreeItems this (Add (_TreeItems this) (f this x)))
              l w))) as Hfold.
  { intros X f l. induction l as [|x l IH]; intros w; simpl.
    - by destruct w.
    - by rewrite IH. }
  destruct v; try done.
  - etrans; [apply (Hfold _ (λ _ Element, ParseNode Element))|done].
  - pose proof (Hfold _
      (λ _ (Pair : string * FJsonValue),
         let Parsed := ParseNode Pair.2 in
         let Row :=
           FTreeItem_KeyValue Pair.1 (Value Parsed) (ValueType Parsed) in
         if 0 <? length (ChildItems Parsed)
         then set_ChildItems Row (ChildItems Parsed) else Row)) as Hrow.
    etrans; [apply Hrow|done].
Qed.

Lemma BuildTree_Array Array this :
  _TreeItems (BuildTree (FJsonValueArray Array) this) = map ParseNode Array.
Proof.
  unfold BuildTree.
  match goal with |- _TreeItems (fold_left ?f _ ?w) = _ =>
    set (body := f);
    change (map ParseNode Array) with (_TreeItems w ++ map ParseNode Array);
    generalize w
  end.
  induction Array as [|e Array IH]; intros w.
  - simpl. by rewrite app_nil_r.
  - cbn [fold_left map]. rewrite IH. subst body. simpl. unfold Add.
    by rewrite <- app_assoc.
Qed.

Lemma BuildTree_Object Values this :
  _TreeItems (BuildTree (FJsonValueObject Values) this)
  = map (λ kv, keyed kv.1 (ParseNode kv.2)) Values.
Proof.
  unfold BuildTree.
  match goal with |- _TreeItems (fold_left ?f _ ?w) = ?r =>
    set (body := f); change r with (_TreeItems w ++ r); generalize w
  end.
  induction Values as [|[k e] Values IH]; intros w.
  - simpl. by rewrite app_nil_r.
  - cbn [fold_left map]. rewrite IH. subst body. simpl. unfold Add.
    rewrite <- app_assoc. simpl. unfold keyed, FTreeItem_KeyValue.
    by destruct (ChildItems (ParseNode e)).
Qed.
End ConversionFacts.

(** ** Walking the store *)

Lemma unfold_mono fuel fuel' σ p r :
  fuel ≤ fuel' → unfold fuel σ p = Some r → unfold fuel' σ p = Some r.
Proof.
  revert fuel' p r. induction fuel as [|fuel IH]; intros fuel' p r Hle Hu.
  { discriminate. }
  destruct fuel' as [|fuel']; [lia|]. simpl in *.
  destruct (σ !! p) as [n|]; [|done].
  destruct (mapM (unfold fuel σ) (Shared.ChildItems n)) as [k|] eqn:Hk;
    [|done].
  apply mapM_Some in Hk.
  assert (mapM (unfold fuel' σ) (Shared.ChildItems n) = Some k) as ->; [|done].
  apply mapM_Some. eapply Forall2_impl; [exact Hk|].
  intros x y Hxy. apply IH; [lia|done].
Qed.

Lemma forest_Forall2 σ ps ts fp :
  forest σ ps ts fp ↔
  ∃ fuel r, Forall2 (λ p y, unfold fuel σ p = Some y) ps r
            ∧ ts = r.*1 ∧ fp = concat (r.*2).
Proof.
  unfold forest, unfold_all. split.
  - intros [fuel Hf]. destruct (mapM _ ps) as [r|] eqn:Hr; [|done].
    exists fuel, r. apply mapM_Some in Hr. by simplify_eq.
  - intros (fuel & r & Hr & -> & ->). exists fuel.
    apply mapM_Some in Hr. by rewrite Hr.
Qed.

Lemma forest_nil σ : forest σ [] [] [].
Proof. by exists 0. Qed.

Lemma forest_length σ ps ts fp : forest σ ps ts fp → length ps = length ts.
Proof.
  rewrite forest_Forall2. intros (fuel & r & Hr & -> & _).
  rewrite length_fmap. by eapply Forall2_length.
Qed.

Lemma forest_app σ ps qs ts us fp fq :
  forest σ ps ts fp → forest σ qs us fq →
  forest σ (ps ++ qs) (ts ++ us) (fp ++ fq).
Proof.
  rewrite !forest_Forall2.
  intros (f1 & r1 & H1 & -> & ->) (f2 & r2 & H2 & -> & ->).
  exists (f1 `max` f2), (r1 ++ r2). split_and!.
  - apply Forall2_app; (eapply Forall2_impl; [eassumption|]);
      intros x y Hxy; (eapply unfold_mono; [|exact Hxy]); lia.
  - by rewrite fmap_app.
  - by rewrite fmap_app, concat_app.
Qed.

Lemma forest_singleton σ p t fp fuel :
  unfold fuel σ p = Some (t, fp) → forest σ [p] [t] fp.
Proof.
  intros Hu. exists fuel. unfold unfold_all. simpl. rewrite Hu. simpl.
  by rewrite app_nil_r.
Qed.

(** A node whose child pointers walk to [ts] walks to the node over [ts]. *)
Lemma unfold_node σ p n ts fp :
  σ !! p = Some n → forest σ (Shared.ChildItems n) ts fp →
  ∃ fuel, unfold fuel σ p
          = Some (mkFTreeItem (Shared.Key n) (Shared.Value n)
                    (Shared.ValueType n) ts, p :: fp).
Proof.
  intros Hp [fuel Hf]. exists (S fuel). simpl. rewrite Hp.
  unfold unfold_all in Hf.
  destruct (mapM _ _) as [r|]; [|done]. by simplify_eq.
Qed.

Lemma unfold_inv fuel σ p t fp :
  unfold fuel σ p = Some (t, fp) →
  ∃ n fp', σ !! p = Some n ∧ fp = p :: fp'
    ∧ t = mkFTreeItem (Shared.Key n) (Shared.Value n) (Shared.ValueType n)
            (ChildItems t)
    ∧ forest σ (Shared.ChildItems n) (ChildItems t) fp'.
Proof.
  destruct fuel as [|fuel]; [done|]. simpl. intros Hu.
  destruct (σ !! p) as [n|]; [|done].
  destruct (mapM _ _) as [r|] eqn:Hr; [|done]. simplify_eq.
  exists n, (concat (r.*2)). split_and!; try done.
  exists fuel. unfold unfold_all. by rewrite Hr.
Qed.

(** A walk only reads the addresses it lists. *)
Lemma unfold_frame fuel σ σ' p t fp :
  unfold fuel σ p = Some (t, fp) →
  (∀ a, a ∈ fp → σ' !! a = σ !! a) →
  unfold fuel σ' p = Some (t, fp).
Proof.
  revert p t fp. induction fuel as [|fuel IH]; intros p t fp Hu Hag; [done|].
  simpl in *. rewrite Hag.
  2:{ destruct (σ !! p); [|done]. destruct (mapM _ _); [|done].
      simplify_eq. by left. }
  destruct (σ !! p) as [n|]; [|done].
  destruct (mapM (unfold fuel σ) _) as [r|] eqn:Hr; [|done]. simplify_eq.
  assert (mapM (unfold fuel σ') (Shared.ChildItems n) = Some r) as ->; [|done].
  apply mapM_Some. apply mapM_Some in Hr.
  assert (∀ a, a ∈ concat (r.*2) → σ' !! a = σ !! a) as Hag'.
  { intros a Ha. apply Hag. by right. }
  clear Hag. induction Hr as [|x [tx fx] l k Hx Hr IHr]; [constructor|].
  simpl in Hag'. constructor.
  - apply IH; [done|]. intros a Ha. apply Hag', elem_of_app. by left.
  - apply IHr. intros a Ha. apply Hag', elem_of_app. by right.
Qed.

Lemma forest_frame σ σ' ps ts fp :
  forest σ ps ts fp →
  (∀ a, a ∈ fp → σ' !! a = σ !! a) →
  forest σ' ps ts fp.
Proof.
  rewrite !forest_Forall2. intros (fuel & r & Hr & -> & ->) Hag.
  exists fuel, r. split_and!; try done.
  induction Hr as [|x [tx fx] l k Hx Hr IHr]; [constructor|].
  simpl in Hag. constructor.
  - eapply unfold_frame; [done|]. intros a Ha. apply Hag, elem_of_app.
    by left.
  - apply IHr. intros a Ha. apply Hag, elem_of_app. by right.
Qed.

(** A walk stays inside the store. *)
Lemma unfold_bound fuel σ p t fp :
  unfold fuel σ p = Some (t, fp) → ∀ a, a ∈ fp → a < length σ.
Proof.
  revert p t fp. induction fuel as [|fuel IH]; intros p t fp Hu; [done|].
  simpl in Hu. destruct (σ !! p) as [n|] eqn:Hp; [|done].
  destruct (mapM _ _) as [r|] eqn:Hr; [|done]. simplify_eq.
  apply mapM_Some in Hr. intros a [->|Ha]%elem_of_cons.
  { by eapply lookup_lt_Some. }
  induction Hr as [|x [tx fx] l k Hx Hr IHr]; simpl in Ha;
    [by apply elem_of_nil in Ha|].
  apply elem_of_app in Ha as [Ha|Ha]; [by eapply IH|by apply IHr].
Qed.

Lemma forest_bound σ ps ts fp :
  forest σ ps ts fp → ∀ a, a ∈ fp → a < length σ.
Proof.
  rewrite forest_Forall2. intros (fuel & r & Hr & -> & ->) a Ha.
  induction Hr as [|x [tx fx] l k Hx Hr IHr]; simpl in Ha;
    [by apply elem_of_nil in Ha|].
  apply elem_of_app in Ha as [Ha|Ha];
    [by eapply unfold_bound|by apply IHr].
Qed.

(** ** What a call leaves in the store *)

Section SharedFacts.
Context `{Engine}.

Lemma fills_refl σ n N : fills σ σ n N N.
Proof. by repeat split. Qed.

Lemma fills_trans σ1 σ2 σ3 n N1 N2 N3 :
  fills σ1 σ2 n N1 N2 → fills σ2 σ3 n N2 N3 → fills σ1 σ3 n N1 N3.
Proof.
  intros (?&?&?&?&Hag) (?&?&?&?&Hag'). repeat split; try congruence.
  - lia.
  - intros a ? ?. rewrite Hag', Hag; [done..|lia|done].
Qed.

(** Attaching to the node, by the update [f], the subtrees [us] that a
    call left behind the pointers [qs] in a later store [σ1]. *)
Lemma filling_attach σ σ1 n N ts f qs us fq :
  filling σ n N ts →
  length σ ≤ length σ1 →
  (∀ a, a < length σ → σ1 !! a = σ !! a) →
  forest σ1 qs us fq → NoDup fq → (∀ a, a ∈ fq → length σ ≤ a) →
  Shared.ChildItems (f N) = Shared.ChildItems N ++ qs →
  Shared.Key (f N) = Shared.Key N →
  Shared.Value (f N) = Shared.Value N →
  Shared.ValueType (f N) = Shared.ValueType N →
  fills σ (Shared.update n f σ1) n N (f N)
  ∧ filling (Shared.update n f σ1) n (f N) (ts ++ us).
Proof.
  intros (Hn & fp & Hfo & Hnd & Hlt) Hlen Hag Hq Hndq Hfresh Hf ? ? ?.
  pose proof (lookup_lt_Some _ _ _ Hn) as Hnlt.
  pose proof (forest_bound _ _ _ _ Hfo) as Hb.
  unfold Shared.update. split; [|split].
  { repeat split; try done.
    - by rewrite length_alter.
    - intros a ? ?. rewrite list_lookup_alter_ne; [by apply Hag|done]. }
  { by rewrite list_lookup_alter_eq, Hag, Hn. }
  exists (fp ++ fq). rewrite Hf. split_and!.
  - apply forest_app.
    + eapply forest_frame; [exact Hfo|]. intros a Ha.
      rewrite list_lookup_alter_ne; [|specialize (Hlt a Ha); lia].
      apply Hag. by apply Hb.
    + eapply forest_frame; [exact Hq|]. intros a Ha.
      apply list_lookup_alter_ne. specialize (Hfresh a Ha). lia.
  - apply NoDup_app. split_and!; [done| |done].
    intros a Ha Ha'. specialize (Hb a Ha). specialize (Hfresh a Ha'). lia.
  - intros a [Ha|Ha]%elem_of_app; [by apply Hlt|].
    specialize (Hfresh a Ha). lia.
Qed.

Lemma array_loop n Array :
  Forall ParseNode_owns Array →
  ∀ σ N ts, filling σ n N ts →
    ∃ N', fills σ (fold_left (array_body n) Array σ) n N N'
          ∧ filling (fold_left (array_body n) Array σ) n N'
              (ts ++ concat (map (λ e, spliced (ParseNode e)) Array)).
Proof.
  induction 1 as [|e Array He _ IH]; intros σ N ts Hfill.
  { exists N. simpl. rewrite app_nil_r. split; [apply fills_refl|done]. }
  cbn [fold_left map concat]. unfold array_body at 2 4.
  destruct (He σ) as (Hlen & Hag & fuel & fpe & Hu & Hnd & Hfresh).
  destruct (Shared.ParseNode e σ) as [p σ1]. simpl in Hlen, Hag, Hu.
  destruct (unfold_inv _ _ _ _ _ Hu) as (Np & fq & Hlk & -> & Ht & Hq).
  unfold Shared.deref. rewrite Hlk. simpl.
  pose proof (forest_length _ _ _ _ Hq) as Hlq.
  rewrite app_assoc.
  destruct (0 <? length (Shared.ChildItems Np)) eqn:Hnum.
  - apply Nat.ltb_lt in Hnum.
    assert (spliced (ParseNode e) = ChildItems (ParseNode e)) as ->.
    { unfold spliced. destruct (ChildItems (ParseNode e)); [|done].
      simpl in Hlq. lia. }
    apply NoDup_cons in Hnd as [_ Hndq].
    match goal with |- context [Shared.update n ?f σ1] =>
      destruct (filling_attach σ σ1 n N ts f _ _ _ Hfill
                  ltac:(lia) Hag Hq Hndq
                  ltac:(intros a Ha; apply Hfresh; by right)
                  eq_refl eq_refl eq_refl eq_refl) as [Hfills Hfill']
    end.
    destruct (IH _ _ _ Hfill') as (N' & Hfills' & Hfilling).
    exists N'. split; [|done]. by eapply fills_trans.
  - apply Nat.ltb_ge in Hnum.
    assert (spliced (ParseNode e) = [ParseNode e]) as ->.
    { unfold spliced. destruct (ChildItems (ParseNode e)); [done|].
      simpl in Hlq. lia. }
    match goal with |- context [Shared.update n ?f σ1] =>
      destruct (filling_attach σ σ1 n N ts f _ _ _ Hfill
                  ltac:(lia) Hag (forest_singleton _ _ _ _ _ Hu)
                  Hnd Hfresh
                  eq_refl eq_refl eq_refl eq_refl) as [Hfills Hfill']
    end.
    destruct (IH _ _ _ Hfill') as (N' & Hfills' & Hfilling).
    exists N'. split; [|done]. by eapply fills_trans.
Qed.

Lemma make_row_owns k e :
  ParseNode_owns e →
  ∀ σ, fresh_tree σ (make_row k e σ) (keyed k (ParseNode e)).
Proof.
  intros He σ. unfold make_row.
  destruct (He σ) as (Hlen & Hag & fuel & fpe & Hu & Hnd & Hfresh).
  destruct (Shared.ParseNode e σ) as [p σ1]. simpl in Hlen, Hag, Hu.
  destruct (unfold_inv _ _ _ _ _ Hu) as (Np & fq & Hlk & -> & Ht & Hq).
  pose proof (lookup_lt_Some _ _ _ Hlk) as Hplt.
  pose proof (forest_bound _ _ _ _ Hq) as Hb.
  unfold Shared.MakeShared, Shared.deref.
  rewrite lookup_app_l, Hlk by done. simpl.
  set (C := Shared.mkFTreeItem k (Shared.Value Np) (Shared.ValueType Np)
              (Shared.ChildItems Np)).
  match goal with |- fresh_tree _ (_, ?s) _ => set (σ3 := s) end.
  assert (length σ3 = S (length σ1)) as Hlen3.
  { subst σ3. destruct (0 <? _); unfold Shared.update;
      rewrite ?length_alter, length_app; simpl; lia. }
  assert (σ3 !! length σ1 = Some C) as Hc.
  { subst σ3 C. destruct (0 <? _) eqn:Hnum; unfold Shared.update.
    - by rewrite list_lookup_alter_eq, list_lookup_middle.
    - apply Nat.ltb_ge in Hnum. rewrite list_lookup_middle by done.
      unfold Shared.FTreeItem_KeyValue. do 2 f_equal.
      destruct (Shared.ChildItems Np); [done|simpl in Hnum; lia]. }
  assert (∀ a, a < length σ1 → σ3 !! a = σ1 !! a) as Hag3.
  { intros a Ha. subst σ3. destruct (0 <? _); unfold Shared.update;
      rewrite ?list_lookup_alter_ne by lia; by apply lookup_app_l. }
  repeat split; simpl.
  - lia.
  - intros a Ha. rewrite Hag3 by lia. by apply Hag.
  - destruct (unfold_node σ3 (length σ1) C (ChildItems (ParseNode e)) fq Hc)
      as [fuel' Hu'].
    { eapply forest_frame; [exact Hq|]. intros a Ha. by apply Hag3, Hb. }
    exists fuel', (length σ1 :: fq). split_and!.
    + rewrite Hu'. unfold keyed. rewrite Ht at 2 3. done.
    + apply NoDup_cons. split; [|by apply NoDup_cons in Hnd as [_ ?]].
      intros Hin. specialize (Hb _ Hin). lia.
    + intros a [->|Ha]%elem_of_cons; [lia|]. apply Hfresh. by right.
Qed.

Lemma object_body_make_row n σ Pair :
  object_body n σ Pair
  = Shared.update n
      (λ n, Shared.set_ChildItems n
              (Add (Shared.ChildItems n) (make_row Pair.1 Pair.2 σ).1))
      (make_row Pair.1 Pair.2 σ).2.
Proof.
  unfold object_body, make_row. by destruct (Shared.ParseNode Pair.2 σ).
Qed.

Lemma object_loop n Values :
  Forall (λ kv, ParseNode_owns kv.2) Values →
  ∀ σ N ts, filling σ n N ts →
    ∃ N', fills σ (fold_left (object_body n) Values σ) n N N'
          ∧ filling (fold_left (object_body n) Values σ) n N'
              (ts ++ map (λ kv, keyed kv.1 (ParseNode kv.2)) Values).
Proof.
  induction 1 as [|[k e] Values He _ IH]; intros σ N ts Hfill.
  { exists N. simpl. rewrite app_nil_r. split; [apply fills_refl|done]. }
  cbn [fold_left map]. rewrite object_body_make_row.
  destruct (make_row_owns k e He σ)
    as (Hlen & Hag & fuel & fpe & Hu & Hnd & Hfresh).
  simpl in *. destruct (make_row k e σ) as [c σ1]. simpl in *.
  match goal with |- context [Shared.update n ?f σ1] =>
    destruct (filling_attach σ σ1 n N ts f _ _ _ Hfill
                ltac:(lia) Hag (forest_singleton _ _ _ _ _ Hu)
                Hnd Hfresh
                eq_refl eq_refl eq_refl eq_refl) as [Hfills Hfill']
  end.
  destruct (IH _ _ _ Hfill') as (N' & Hfills' & Hfilling).
  exists N'. split; [by eapply fills_trans|].
  by rewrite <- app_assoc in Hfilling.
Qed.

(** A node allocated empty and then filled by a loop. *)
Lemma filled_node_owns σ σ' N0 N' ts t :
  fills (σ ++ [N0]) σ' (length σ) N0 N' →
  filling σ' (length σ) N' ts →
  t = mkFTreeItem (Shared.Key N0) (Shared.Value N0) (Shared.ValueType N0) ts →
  fresh_tree σ (length σ, σ') t.
Proof.
  intros (HK & HV & HT & Hlen & Hag) (Hn & fp & Hfo & Hnd & Hlt) ->.
  rewrite length_app in Hlen, Hag. simpl in Hlen, Hag.
  repeat split; simpl.
  - lia.
  - intros a Ha. rewrite Hag by lia. by apply lookup_app_l.
  - destruct (unfold_node _ _ _ _ _ Hn Hfo) as [fuel Hu].
    exists fuel, (length σ :: fp). rewrite Hu, HK, HV, HT. split_and!.
    + done.
    + apply NoDup_cons. split; [|done].
      intros Hin. specialize (Hlt _ Hin). lia.
    + intros a [->|Ha]%elem_of_cons; [lia|]. specialize (Hlt _ Ha). lia.
Qed.

Lemma filling_start σ N0 :
  Shared.ChildItems N0 = [] → filling (σ ++ [N0]) (length σ) N0 [].
Proof.
  intros Hc. split; [by apply list_lookup_middle|].
  exists []. rewrite Hc. split_and!.
  - apply forest_nil.
  - constructor.
  - by intros a ?%elem_of_nil.
Qed.

(** A leaf: allocated, then given its value and type. *)
Lemma leaf_owns σ N0 f t :
  t = mkFTreeItem (Shared.Key (f N0)) (Shared.Value (f N0))
        (Shared.ValueType (f N0)) [] →
  Shared.ChildItems (f N0) = [] →
  fresh_tree σ (length σ, Shared.update (length σ) f (σ ++ [N0])) t.
Proof.
  intros -> Hc. unfold Shared.update. repeat split; simpl.
  - rewrite length_alter, length_app. simpl. lia.
  - intros a Ha. rewrite list_lookup_alter_ne by lia.
    by apply lookup_app_l.
  - exists 1, [length σ]. simpl.
    rewrite list_lookup_alter_eq, list_lookup_middle by done. simpl.
    rewrite Hc. simpl. split_and!.
    + done.
    + apply NoDup_singleton.
    + intros a ->%list_elem_of_singleton. lia.
Qed.

(** [ParseNode] returns a pointer to a tree of its own making that reads
    back to the tree computed by value. *)
Lemma ParseNode_owns_all v : ParseNode_owns v.
Proof.
  induction v as [| |s|d|b|a IH|o IH] using FJsonValue_ind'; intros σ.
  - change (Shared.ParseNode FJsonValueNone σ)
      with (length σ, σ ++ [Shared.FTreeItem_Type EJson_None]).
    rewrite <- (list_alter_id id (σ ++ _) (length σ)) by done.
    by apply leaf_owns.
  - by apply leaf_owns.
  - by apply leaf_owns.
  - by apply leaf_owns.
  - by apply leaf_owns.
  - change (Shared.ParseNode (FJsonValueArray a) σ)
      with (length σ,
            fold_left (array_body (length σ)) a
              (σ ++ [Shared.FTreeItem_Type EJson_Array])).
    destruct (array_loop (length σ) a IH _ _ _
                (filling_start σ (Shared.FTreeItem_Type EJson_Array) eq_refl))
      as (N' & Hfills & Hfilling).
    eapply filled_node_owns; [done..|]. by rewrite ParseNode_Array.
  - change (Shared.ParseNode (FJsonValueObject o) σ)
      with (length σ,
            fold_left (object_body (length σ)) o
              (σ ++ [Shared.FTreeItem_Type EJson_Object])).
    destruct (object_loop (length σ) o IH _ _ _
                (filling_start σ (Shared.FTreeItem_Type EJson_Object) eq_refl))
      as (N' & Hfills & Hfilling).
    eapply filled_node_owns; [done..|]. by rewrite ParseNode_Object.
Qed.

Lemma roots_own_start σ : roots_own σ ([], σ) [].
Proof.
  repeat split; try done. exists []. split_and!.
  - apply forest_nil.
  - constructor.
  - by intros a ?%elem_of_nil.
Qed.

Lemma roots_own_Add σ0 items σ ts r t :
  roots_own σ0 (items, σ) ts → fresh_tree σ r t →
  roots_own σ0 (Add items r.1, r.2) (ts ++ [t]).
Proof.
  intros (Hlen & Hag & fp & Hfo & Hnd & Hfresh)
         (Hlen' & Hag' & fuel & fq & Hu & Hndq & Hfreshq).
  simpl in *. pose proof (forest_bound _ _ _ _ Hfo) as Hb.
  repeat split; simpl.
  - lia.
  - intros a Ha. rewrite Hag' by lia. by apply Hag.
  - exists (fp ++ fq). split_and!.
    + apply forest_app; [|by eapply forest_singleton].
      eapply forest_frame; [exact Hfo|]. intros a Ha. by apply Hag', Hb.
    + apply NoDup_app. split_and!; [done| |done].
      intros a Ha Ha'. specialize (Hb a Ha). specialize (Hfreshq a Ha').
      lia.
    + intros a [Ha|Ha]%elem_of_app; [by apply Hfresh|].
      specialize (Hfreshq a Ha). lia.
Qed.

Lemma root_array_loop σ0 Array :
  ∀ s ts, roots_own σ0 s ts →
    roots_own σ0
      (fold_left
         (λ (s : list Shared.addr * Shared.Store) (Element : FJsonValue),
            let '(Parsed, σ) := Shared.ParseNode Element s.2 in
            (Add s.1 Parsed, σ))
         Array s)
      (ts ++ map ParseNode Array).
Proof.
  induction Array as [|e Array IH]; intros [items σ] ts Hs.
  { simpl. by rewrite app_nil_r. }
  cbn [fold_left map]. simpl.
  pose proof (roots_own_Add σ0 items σ ts _ _ Hs
                (ParseNode_owns_all e σ)) as Hs'.
  destruct (Shared.ParseNode e σ) as [p σ1].
  specialize (IH _ _ Hs'). by rewrite <- app_assoc in IH.
Qed.

Lemma root_object_loop σ0 Values :
  ∀ s ts, roots_own σ0 s ts →
    roots_own σ0
      (fold_left
         (λ (s : list Shared.addr * Shared.Store)
            (Pair : string * FJsonValue),
            let '(Parsed, σ) := Shared.ParseNode Pair.2 s.2 in
            let '(Row, σ) :=
              Shared.MakeShared
                (Shared.FTreeItem_KeyValue Pair.1
                   (Shared.Value (Shared.deref σ Parsed))
                   (Shared.ValueType (Shared.deref σ Parsed))) σ in
            let σ :=
              if 0 <? length (Shared.ChildItems (Shared.deref σ Parsed))
              then Shared.update Row
                     (λ c, Shared.set_ChildItems c
                             (Shared.ChildItems (Shared.deref σ Parsed))) σ
              else σ in
            (Add s.1 Row, σ))
         Values s)
      (ts ++ map (λ kv, keyed kv.1 (ParseNode kv.2)) Values).
Proof.
  induction Values as [|[k e] Values IH]; intros [items σ] ts Hs.
  { simpl. by rewrite app_nil_r. }
  cbn [fold_left map]. simpl.
  pose proof (roots_own_Add σ0 items σ ts _ _ Hs
                (make_row_owns k e (ParseNode_owns_all e) σ)) as Hs'.
  unfold make_row in Hs'.
  destruct (Shared.ParseNode e σ) as [p σ1].
  specialize (IH _ _ Hs'). by rewrite <- app_assoc in IH.
Qed.

(** [BuildTree] leaves in [_TreeItems] pointers to trees of its own
    making that read back to the rows computed by value. *)
Lemma BuildTree_owns v _TreeItems σ :
  roots_own σ (Shared.BuildTree v _TreeItems σ) (top_level v).
Proof.
  pose proof (roots_own_start σ) as Hstart.
  assert (∀ t : FTreeItem, [t] = [] ++ [t]) as Hone by done.
  destruct v as [| |s|d|b|a|o]; unfold Shared.BuildTree, top_level;
    try (rewrite Hone;
         match goal with |- context [Shared.ParseNode ?v σ] =>
           pose proof (roots_own_Add σ [] σ [] _ _ Hstart
                         (ParseNode_owns_all v σ)) as Hr;
           by destruct (Shared.ParseNode v σ)
         end).
  - by apply (root_array_loop σ a ([], σ) []).
  - by apply (root_object_loop σ o ([], σ) []).
Qed.
End SharedFacts.

(** ** Shapes of the nodes *)

Section ShapeFacts.
Context `{Engine}.

Lemma shaped_unfold Item :
  shaped Item ↔ node_shape Item ∧ Forall shaped (ChildItems Item).
Proof.
  unfold shaped. destruct Item as [k v t cs]. simpl.
  rewrite Forall_cons. apply and_iff_compat_l.
  induction cs as [|c cs IH]; simpl.
  - split; constructor.
  - by rewrite Forall_app, Forall_cons, IH.
Qed.

Lemma leaf_shaped k v t : shaped (mkFTreeItem k v t []).
Proof. apply shaped_unfold. by repeat split. Qed.

Lemma container_shape t cs :
  t = EJson_Object ∨ t = EJson_Array →
  node_shape (mkFTreeItem EmptyString EmptyString t cs).
Proof.
  intros Ht. split; simpl; [done|]. intros Hin.
  repeat (apply elem_of_cons in Hin as [->|Hin]; [by destruct Ht|]).
  by apply elem_of_nil in Hin.
Qed.

Lemma keyed_shaped k Parsed : shaped Parsed → shaped (keyed k Parsed).
Proof. rewrite !shaped_unfold. by destruct Parsed. Qed.

Lemma spliced_shaped Parsed : shaped Parsed → Forall shaped (spliced Parsed).
Proof.
  intros Hs. unfold spliced.
  destruct (ChildItems Parsed) eqn:Hc; [by repeat constructor|].
  apply shaped_unfold in Hs as [_ Hs]. by rewrite Hc in Hs.
Qed.

Lemma ParseNode_shaped v : shaped (ParseNode v).
Proof.
  induction v as [| |s|d|b|a IH|o IH] using FJsonValue_ind';
    try apply leaf_shaped.
  - rewrite ParseNode_Array. apply shaped_unfold.
    split; [apply container_shape; by right|]. simpl.
    induction IH as [|e a He _ IHa]; simpl; [constructor|].
    apply Forall_app. split; [by apply spliced_shaped|done].
  - rewrite ParseNode_Object. apply shaped_unfold.
    split; [apply container_shape; by left|]. simpl.
    induction IH as [|[k e] o He _ IHo]; simpl; constructor;
      [by apply keyed_shaped|done].
Qed.

Lemma top_level_shaped v : Forall shaped (top_level v).
Proof.
  destruct v as [| |?|?|?|Value0|Values]; simpl;
    try (constructor; [apply leaf_shaped|constructor]).
  - induction Value0 as [|e a IH]; simpl; constructor;
      [apply ParseNode_shaped|done].
  - induction Values as [|[k e] o IH]; simpl; constructor;
      [apply keyed_shaped, ParseNode_shaped|done].
Qed.
End ShapeFacts.

(** ** The entry point *)

Section InitFacts.
Context `{Engine}.

(** The rows [BuildTree] leaves depend on the document only. *)
Lemma BuildTree_top_level v this :
  _TreeItems (BuildTree v this) = top_level v.
Proof.
  destruct v; try done.
  - apply BuildTree_Array.
  - apply BuildTree_Object.
Qed.

Lemma InitJsonTree_TreeItems s this :
  _TreeItems (InitJsonTree s this)
  = match parsed_input s with
    | Some v => top_level v
    | None => _TreeItems this
    end.
Proof.
  unfold InitJsonTree, parsed_input, input_text, ReadJsonFile,
    ParseJsonContents.
  destruct (FileExists s); simpl.
  - destruct (LoadFileToString s) as [text|[text|]]; simpl; try done.
    destruct (IsValidJson text); simpl; [|done].
    destruct (Deserialize_Value text); simpl; [|done].
    apply BuildTree_top_level.
  - destruct (IsValidJson s) eqn:Hs; simpl; [|done]. rewrite Hs.
    destruct (Deserialize_Value s); simpl; [|done].
    apply BuildTree_top_level.
Qed.

(** Only a text whose root is an object passes [IsValidJson]. *)
Lemma IsValidJson_Object s :
  IsValidJson s = true ↔ ∃ Values, JsonText s = Some (FJsonValueObject Values).
Proof.
  unfold IsValidJson, Deserialize_Object.
  destruct (JsonText s) as [[]|]; split; try done; eauto;
    by intros [? ?].
Qed.
End InitFacts.

(** ** The widget at work *)

(** The document [{"a":null,"b":[true,[42]]}]: the inner array [[42]] is
    flattened into the array [b]. *)
Example ParseNode_demo :
  ParseNode (H := demo_engine) demo_document
  = mkFTreeItem EmptyString EmptyString EJson_Object
      [mkFTreeItem "a" "null" EJson_Null [];
       mkFTreeItem "b" EmptyString EJson_Array
         [mkFTreeItem EmptyString "true" EJson_Boolean [];
          mkFTreeItem EmptyString "42.0" EJson_Number []]].
Proof. reflexivity. Qed.

(** The same call on an empty store makes eight node objects, of which
    the tree keeps five. *)
Example Shared_ParseNode_demo :
  (Shared.ParseNode (H := demo_engine) demo_document []).1 = 0
  ∧ length (Shared.ParseNode (H := demo_engine) demo_document []).2 = 8
  ∧ unfold 3 (Shared.ParseNode (H := demo_engine) demo_document []).2 0
    = Some (ParseNode (H := demo_engine) demo_document, [0; 2; 7; 4; 6]).
Proof. by vm_compute. Qed.

(** In that store the dropped node 3 (the converted array) and the row 7
    (the member [b]) hold the same children: a walk from both meets the
    objects 4 and 6 twice. *)
Example walk_meets_shared_children :
  snd <$> unfold_all 2
            (Shared.ParseNode (H := demo_engine) demo_document []).2 [3; 7]
  = Some [3; 4; 6; 7; 4; 6].
Proof. by vm_compute. Qed.

(** A node that is its own child has no walk. *)
Lemma walk_of_cycle fuel :
  unfold fuel
    [Shared.mkFTreeItem EmptyString EmptyString EJson_Array [0]] 0
  = None.
Proof. induction fuel as [|fuel IH]; simpl; [done|]. by rewrite IH. Qed.

(** A file with an object at its root replaces the rows on display. *)
Example InitJsonTree_file_demo :
  _TreeItems (InitJsonTree (H := demo_engine) "tree.json" demo_widget)
  = [mkFTreeItem "a" "null" EJson_Null [];
     mkFTreeItem "b" EmptyString EJson_Array
       [mkFTreeItem EmptyString "true" EJson_Boolean [];
        mkFTreeItem EmptyString "42.0" EJson_Number []]].
Proof. reflexivity. Qed.

(** A text with an array at its root does not pass [IsValidJson]. *)
Example InitJsonTree_root_array_demo :
  InitJsonTree (H := demo_engine) "[null]" demo_widget
  = set_bValidJson demo_widget false.
Proof. reflexivity. Qed.

(** ** The claims *)

(** C1. For a JSON array, [ParseNode] returns an array node whose child
    list is the concatenation, in element order, of what each element
    contributes: the children of the converted element when it has at
    least one child, the converted element itself otherwise. *)
Theorem ParseNode_array_splices_children `{Engine} (Array : list FJsonValue) :
  ChildItems (ParseNode (FJsonValueArray Array))
  = concat
      (map (λ Element,
              match ChildItems (ParseNode Element) with
              | [] => [ParseNode Element]
              | Children => Children
              end)
         Array).
Proof. by rewrite ParseNode_Array. Qed.

(** C2. For a JSON object, [ParseNode] returns a node with one child per
    member, in member order; the child has the member's key, the value
    text, the type and the children of the converted member value. *)
Theorem ParseNode_object_keyed_children `{Engine}
    (Values : list (string * FJsonValue)) :
  ChildItems (ParseNode (FJsonValueObject Values))
  = map (λ Pair,
           mkFTreeItem Pair.1 (Value (ParseNode Pair.2))
             (ValueType (ParseNode Pair.2)) (ChildItems (ParseNode Pair.2)))
      Values.
Proof. by rewrite ParseNode_Object. Qed.

(** C3. For a string, a number, a boolean and null, [ParseNode] returns a
    leaf: no key, no children, the type of the value, and as value text
    the string itself, the sanitized double, "true" or "false", "null". *)
Theorem ParseNode_primitive_leaf `{Engine} :
  (∀ s, ParseNode (FJsonValueString s)
        = mkFTreeItem EmptyString s EJson_String [])
  ∧ (∀ d, ParseNode (FJsonValueNumber d)
          = mkFTreeItem EmptyString (SanitizeFloat d) EJson_Number [])
  ∧ (∀ b, ParseNode (FJsonValueBoolean b)
          = mkFTreeItem EmptyString (if b then "true" else "false")
              EJson_Boolean [])
  ∧ ParseNode FJsonValueNull = mkFTreeItem EmptyString "null" EJson_Null [].
Proof. done. Qed.




(** C5, as claimed, fails: the text [true] is a JSON boolean and no file,
    and [InitJsonTree] does not accept it; the rows on display stay. *)
Lemma InitJsonTree_primitive_not_accepted :
  FileExists (Engine := demo_engine) "true" = false
  ∧ JsonText (Engine := demo_engine) "true" = Some (FJsonValueBoolean true)
  ∧ _bValidJson (InitJsonTree (H := demo_engine) "true" demo_widget) = false
  ∧ _TreeItems (InitJsonTree (H := demo_engine) "true" demo_widget)
    = [mkFTreeItem "old" "row" EJson_String []]
  ∧ _TreeItems (InitJsonTree (H := demo_engine) "true" demo_widget)
    ≠ [ParseNode (H := demo_engine) (FJsonValueBoolean true)].
Proof. split_and!; by vm_compute. Qed.

(** C5, amended. A raw input that is a single JSON primitive and no file
    is not accepted: [IsValidJson] deserializes into a JSON object and
    fails, the widget is marked invalid and is left as it was otherwise,
    its rows included.  [BuildTree], given the primitive itself, leaves
    the single leaf of that primitive. *)
Theorem InitJsonTree_rejects_primitive `{Engine} (JsonPathorString : string)
    (JsonValue : FJsonValue) (this : UJsonTreeViewerWidget) :
  FileExists JsonPathorString = false →
  JsonText JsonPathorString = Some JsonValue →
  IsPrimitive JsonValue = true →
  IsValidJson JsonPathorString = false
  ∧ InitJsonTree JsonPathorString this = set_bValidJson this false
  ∧ _TreeItems (InitJsonTree JsonPathorString this) = _TreeItems this
  ∧ _TreeItems (BuildTree JsonValue this) = [ParseNode JsonValue]
  ∧ ChildItems (ParseNode JsonValue) = [].
Proof.
  intros Hfile Htext Hprim.
  assert (IsValidJson JsonPathorString = false) as Hinvalid.
  { unfold IsValidJson, Deserialize_Object. rewrite Htext.
    by destruct JsonValue. }
  assert (InitJsonTree JsonPathorString this = set_bValidJson this false)
    as Hinit.
  { unfold InitJsonTree. by rewrite Hfile, Hinvalid. }
  split_and!;
    [done|done|by rewrite Hinit|by destruct JsonValue|by destruct JsonValue].
Qed.

Lemma InitJsonTree_rejects_primitive_witness :
  IsValidJson (H := demo_engine) "42" = false
  ∧ InitJsonTree (H := demo_engine) "42" demo_widget
    = set_bValidJson demo_widget false
  ∧ _TreeItems (InitJsonTree (H := demo_engine) "42" demo_widget)
    = _TreeItems demo_widget
  ∧ _TreeItems (BuildTree (H := demo_engine) (FJsonValueNumber 42) demo_widget)
    = [ParseNode (H := demo_engine) (FJsonValueNumber 42)]
  ∧ ChildItems (ParseNode (H := demo_engine) (FJsonValueNumber 42)) = [].
Proof.
  apply (InitJsonTree_rejects_primitive (H := demo_engine)
           "42" (FJsonValueNumber 42) demo_widget); reflexivity.
Defined.

(** C6. [BuildTree] starts by emptying [_TreeItems], so the rows it
    leaves are a function of the document alone; and when the input of
    [InitJsonTree] is parsed, into the document [JsonValue], the rows are
    those of [JsonValue] whatever the widget held before: two widgets
    with different histories end with the same rows. *)
Theorem InitJsonTree_history_free `{Engine} (JsonPathorString : string)
    (JsonValue : FJsonValue) (this1 this2 : UJsonTreeViewerWidget) :
  parsed_input JsonPathorString = Some JsonValue →
  _TreeItems (InitJsonTree JsonPathorString this1)
  = _TreeItems (InitJsonTree JsonPathorString this2)
  ∧ _TreeItems (InitJsonTree JsonPathorString this1) = top_level JsonValue
  ∧ _TreeItems (BuildTree JsonValue this1) = top_level JsonValue
  ∧ _TreeItems (BuildTree JsonValue this2) = top_level JsonValue.
Proof.
  intros Hparsed. rewrite !InitJsonTree_TreeItems, Hparsed.
  by rewrite !BuildTree_top_level.
Qed.

Lemma InitJsonTree_history_free_witness :
  _TreeItems (InitJsonTree (H := demo_engine) "tree.json" demo_widget)
  = _TreeItems (InitJsonTree (H := demo_engine) "tree.json" blank_widget)
  ∧ _TreeItems (InitJsonTree (H := demo_engine) "tree.json" demo_widget)
    = top_level (H := demo_engine) demo_document
  ∧ _TreeItems (BuildTree (H := demo_engine) demo_document demo_widget)
    = top_level (H := demo_engine) demo_document
  ∧ _TreeItems (BuildTree (H := demo_engine) demo_document blank_widget)
    = top_level (H := demo_engine) demo_document.
Proof.
  apply (InitJsonTree_history_free (H := demo_engine)
           "tree.json" demo_document demo_widget blank_widget).
  reflexivity.
Defined.

(** C7. The pointer [ParseNode] returns, and the pointers [BuildTree]
    leaves in [_TreeItems], lead to a finite simple tree: the walk from
    them ends (no node is below itself), it meets no node object twice
    (no node has two parent positions), it stays within objects made
    by the call, and what it sees is the tree computed by value. *)
Theorem trees_are_simple `{Engine} (JsonValue : FJsonValue)
    (σ : Shared.Store) (Old : list Shared.addr)
    (this : UJsonTreeViewerWidget) :
  (∃ fuel fp,
     unfold fuel (Shared.ParseNode JsonValue σ).2
       (Shared.ParseNode JsonValue σ).1
     = Some (ParseNode JsonValue, fp)
     ∧ NoDup fp ∧ Forall (λ a, length σ ≤ a) fp)
  ∧ (∃ fuel fp,
       unfold_all fuel (Shared.BuildTree JsonValue Old σ).2
         (Shared.BuildTree JsonValue Old σ).1
       = Some (_TreeItems (BuildTree JsonValue this), fp)
       ∧ NoDup fp ∧ Forall (λ a, length σ ≤ a) fp).
Proof.
  split.
  - destruct (ParseNode_owns_all JsonValue σ)
      as (_ & _ & fuel & fp & Hu & Hnd & Hfresh).
    exists fuel, fp. split_and!; [done..|]. by apply Forall_forall.
  - destruct (BuildTree_owns JsonValue Old σ)
      as (_ & _ & fp & [fuel Hf] & Hnd & Hfresh).
    exists fuel, fp. rewrite BuildTree_top_level.
    split_and!; [done..|]. by apply Forall_forall.
Qed.

(** C8. [GetValueColorFromJsonType] returns the configured colour of the
    type: the string, numeric, boolean and null colours for those four
    types, and the foreground colour for object, array and none. *)
Theorem GetValueColorFromJsonType_table (this : UJsonTreeViewerWidget) :
  GetValueColorFromJsonType EJson_String this = StringValueColor this
  ∧ GetValueColorFromJsonType EJson_Number this = NumericValueColor this
  ∧ GetValueColorFromJsonType EJson_Boolean this = BooleanValueColor this
  ∧ GetValueColorFromJsonType EJson_Null this = NullValueColor this
  ∧ GetValueColorFromJsonType EJson_Object this = UseColor_Foreground
  ∧ GetValueColorFromJsonType EJson_Array this = UseColor_Foreground
  ∧ GetValueColorFromJsonType EJson_None this = UseColor_Foreground.
Proof. done. Qed.

(** C9. In the tree [ParseNode] returns and in the rows [BuildTree]
    leaves, every node has the shape [node_shape]: a node with children
    has type object or array and no value text, and a node of type
    string, number, boolean, null or none has no children. *)
Theorem nodes_with_children_are_containers `{Engine}
    (JsonValue : FJsonValue) (this : UJsonTreeViewerWidget) :
  Forall node_shape (nodes (ParseNode JsonValue))
  ∧ Forall (λ Item, Forall node_shape (nodes Item))
      (_TreeItems (BuildTree JsonValue this)).
Proof.
  split; [apply ParseNode_shaped|].
  rewrite BuildTree_top_level. apply top_level_shaped.
Qed.

(** C10. When the input of [InitJsonTree] is neither a file nor accepted
    by [IsValidJson], or is a file that cannot be read, or is a file
    whose contents [ParseJsonContents] fails on, the rows of the widget
    are left as they were. *)
Theorem InitJsonTree_failure_keeps_tree `{Engine} (JsonPathorString : string)
    (this : UJsonTreeViewerWidget) :
  (FileExists JsonPathorString = false
   ∧ IsValidJson JsonPathorString = false)
  ∨ (FileExists JsonPathorString = true
     ∧ ∃ Result, LoadFileToString JsonPathorString = LoadFailed Result)
  ∨ (FileExists JsonPathorString = true
     ∧ ∃ Result, LoadFileToString JsonPathorString = Loaded Result
                 ∧ (ParseJsonContents Result (_JsonValue this)).1 = false) →
  _TreeItems (InitJsonTree JsonPathorString this) = _TreeItems this.
Proof.
  rewrite InitJsonTree_TreeItems. unfold parsed_input, input_text.
  intros [[-> ->]|[[-> [r ->]]|[-> (text & -> & Hparse)]]]; try done.
  unfold ParseJsonContents in Hparse.
  destruct (IsValidJson text); [|done].
  by destruct (Deserialize_Value text).
Qed.

Lemma InitJsonTree_failure_keeps_tree_witness :
  _TreeItems (InitJsonTree (H := demo_engine) "no such thing" demo_widget)
  = _TreeItems demo_widget
  ∧ _TreeItems (InitJsonTree (H := demo_engine) "locked.json" demo_widget)
    = _TreeItems demo_widget
  ∧ _TreeItems (InitJsonTree (H := demo_engine) "broken.json" demo_widget)
    = _TreeItems demo_widget.
Proof.
  split_and!.
  - apply (InitJsonTree_failure_keeps_tree (H := demo_engine)
             "no such thing" demo_widget).
    left. split; reflexivity.
  - apply (InitJsonTree_failure_keeps_tree (H := demo_engine)
             "locked.json" demo_widget).
    right. left. split; [reflexivity|]. exists None. reflexivity.
  - apply (InitJsonTree_failure_keeps_tree (H := demo_engine)
             "broken.json" demo_widget).
    right. right. split; [reflexivity|]. exists "{".
    split; reflexivity.
Defined.

(** ** Further properties of the conversion *)

Lemma max_list_app (l k : list nat) :
  max_list (l ++ k) = max_list l `max` max_list k.
Proof. induction l as [|n l IH]; simpl; [done|]. rewrite IH. lia. Qed.

Lemma max_list_S (l : list nat) :
  l ≠ [] → S (max_list l) = max_list (map S l).
Proof.
  induction l as [|n [|m l] IH]; intros Hne; [done|simpl; lia|].
  specialize (IH ltac:(done)). simpl in *. lia.
Qed.

Section MeasureFacts.
Context `{Engine}.

Lemma spliced_nonempty Parsed : spliced Parsed ≠ [].
Proof. unfold spliced. by destruct (ChildItems Parsed) eqn:Hc. Qed.

Lemma ParseNode_Num v :
  (0 <? length (ChildItems (ParseNode v))) = negb (IsChildless v).
Proof.
  destruct v as [| |s|d|b|a|o]; try done.
  - rewrite ParseNode_Array. destruct a as [|e a]; [done|]. simpl.
    pose proof (spliced_nonempty (ParseNode e)) as Hne.
    by destruct (spliced (ParseNode e)).
  - rewrite ParseNode_Object. by destruct o.
Qed.

Lemma leaves_keyed k Parsed :
  map (λ n, (Value n, ValueType n)) (leaves (keyed k Parsed))
  = map (λ n, (Value n, ValueType n)) (leaves Parsed).
Proof. by destruct Parsed as [k' v t [|c cs]]. Qed.

Lemma leaves_spliced Parsed :
  concat (map leaves (spliced Parsed)) = leaves Parsed.
Proof.
  destruct Parsed as [k v t [|c cs]]; done.
Qed.

Lemma leaves_array_children (l : list FJsonValue) :
  Forall (λ e, map (λ n, (Value n, ValueType n)) (leaves (ParseNode e))
               = atoms e) l →
  map (λ n, (Value n, ValueType n))
    (concat (map leaves (concat (map (λ e, spliced (ParseNode e)) l))))
  = concat (map atoms l).
Proof.
  induction 1 as [|e l He _ IH]; [done|]. cbn [map concat].
  by rewrite map_app, concat_app, map_app, leaves_spliced, He, IH.
Qed.

Lemma leaves_object_children (l : list (string * FJsonValue)) :
  Forall (λ kv, map (λ n, (Value n, ValueType n)) (leaves (ParseNode kv.2))
                = atoms kv.2) l →
  map (λ n, (Value n, ValueType n))
    (concat (map leaves (map (λ kv, keyed kv.1 (ParseNode kv.2)) l)))
  = concat (map (λ kv, atoms kv.2) l).
Proof.
  induction 1 as [|[k e] l He _ IH]; [done|]. cbn [map concat fst snd] in *.
  by rewrite map_app, leaves_keyed, He, IH.
Qed.

Lemma leaves_atoms v :
  map (λ n, (Value n, ValueType n)) (leaves (ParseNode v)) = atoms v.
Proof.
  induction v as [| |s|d|b|a IH|o IH] using FJsonValue_ind'; try done.
  - destruct a as [|e a]; [done|].
    rewrite ParseNode_Array.
    pose proof (spliced_nonempty (ParseNode e)) as Hne.
    pose proof (leaves_array_children _ IH) as Hl.
    simpl in *. by destruct (spliced (ParseNode e)).
  - destruct o as [|[k e] o]; [done|].
    rewrite ParseNode_Object.
    pose proof (leaves_object_children _ IH) as Hl.
    by simpl in *.
Qed.

Lemma height_node k v t c cs :
  height (mkFTreeItem k v t (c :: cs))
  = max_list (map (λ n, S (height n)) (c :: cs)).
Proof.
  change (height (mkFTreeItem k v t (c :: cs)))
    with (S (max_list (map height (c :: cs)))).
  rewrite max_list_S by done. by rewrite map_map.
Qed.

Lemma height_spliced Parsed :
  max_list (map (λ n, S (height n)) (spliced Parsed))
  = 1 `max` height Parsed.
Proof.
  destruct Parsed as [k v t [|c cs]]; [done|].
  unfold spliced. cbn [ChildItems]. rewrite <- (height_node k v t).
  change (height (mkFTreeItem k v t (c :: cs)))
    with (S (max_list (map height (c :: cs)))).
  lia.
Qed.

Lemma height_array_children (l : list FJsonValue) :
  Forall (λ e, height (ParseNode e) = levels e) l →
  max_list
    (map (λ n, S (height n)) (concat (map (λ e, spliced (ParseNode e)) l)))
  = max_list (map (λ e, 1 `max` levels e) l).
Proof.
  induction 1 as [|e l He _ IH]; [done|]. cbn [map concat].
  rewrite map_app, max_list_app, height_spliced, He, IH. done.
Qed.

Lemma height_object_children (l : list (string * FJsonValue)) :
  Forall (λ kv, height (ParseNode kv.2) = levels kv.2) l →
  max_list
    (map (λ n, S (height n)) (map (λ kv, keyed kv.1 (ParseNode kv.2)) l))
  = max_list (map (λ kv, S (levels kv.2)) l).
Proof.
  induction 1 as [|[k e] l He _ IH]; [done|]. cbn [map].
  change (max_list (?x :: ?l)) with (x `max` max_list l).
  rewrite IH. simpl in *. rewrite <- He.
  by destruct (ParseNode e) as [k' v t [|c cs]].
Qed.

Lemma height_levels v : height (ParseNode v) = levels v.
Proof.
  induction v as [| |s|d|b|a IH|o IH] using FJsonValue_ind'; try done.
  - rewrite ParseNode_Array.
    change (levels (FJsonValueArray a))
      with (max_list (map (λ e, 1 `max` levels e) a)).
    rewrite <- (height_array_children _ IH).
    destruct (concat _) as [|c cs]; [done|]. apply height_node.
  - rewrite ParseNode_Object.
    change (levels (FJsonValueObject o))
      with (max_list (map (λ kv, S (levels kv.2)) o)).
    rewrite <- (height_object_children _ IH).
    destruct (map _ o) as [|c cs]; [done|]. apply height_node.
Qed.
End MeasureFacts.

(** ** Further properties of the entry point *)

Section EntryFacts.
Context `{Engine}.

Lemma BuildTree_eq v this :
  BuildTree v this = set_TreeItems this (top_level v).
Proof. by rewrite BuildTree_only_TreeItems, BuildTree_top_level. Qed.

Lemma top_level_Object Values :
  top_level (FJsonValueObject Values)
  = ChildItems (ParseNode (FJsonValueObject Values)).
Proof. by rewrite ParseNode_Object. Qed.

Lemma IsValidJson_eq s :
  IsValidJson s
  = match JsonText s with
    | Some (FJsonValueObject _) => true
    | _ => false
    end.
Proof.
  unfold IsValidJson, Deserialize_Object. by destruct (JsonText s) as [[]|].
Qed.

Lemma ParseJsonContents_eq s old :
  ParseJsonContents s old
  = match JsonText s with
    | Some (FJsonValueObject Values) =>
        (true, Some (FJsonValueObject Values))
    | _ => (false, old)
    end.
Proof.
  unfold ParseJsonContents, IsValidJson, Deserialize_Object,
    Deserialize_Value.
  by destruct (JsonText s) as [[]|].
Qed.

(** [InitJsonTree] on an input that is no file. *)
Lemma InitJsonTree_raw s this :
  FileExists s = false →
  InitJsonTree s this
  = match JsonText s with
    | Some (FJsonValueObject Values) =>
        set_TreeItems
          (set_JsonValue
             (set_bValidJson (set_JsonString (set_JsonInput this s) s) true)
             (Some (FJsonValueObject Values)))
          (ChildItems (ParseNode (FJsonValueObject Values)))
    | _ => set_bValidJson this false
    end.
Proof.
  intros Hfile. unfold InitJsonTree. rewrite Hfile, IsValidJson_eq.
  destruct (JsonText s) as [[| | | | | |Values]|] eqn:Htext; try done.
  cbn -[BuildTree ParseNode]. rewrite ParseJsonContents_eq, Htext.
  cbn -[BuildTree ParseNode]. by rewrite BuildTree_eq, top_level_Object.
Qed.

(** [InitJsonTree] on the path of a file. *)
Lemma InitJsonTree_file s this :
  FileExists s = true →
  InitJsonTree s this
  = match LoadFileToString s with
    | Loaded text =>
        let this1 :=
          set_bValidJson
            (set_JsonString (set_JsonFilePath (set_JsonInput this s) s) text)
            true in
        match JsonText text with
        | Some (FJsonValueObject Values) =>
            set_TreeItems
              (set_JsonValue this1 (Some (FJsonValueObject Values)))
              (ChildItems (ParseNode (FJsonValueObject Values)))
        | _ => this1
        end
    | LoadFailed r =>
        set_bValidJson
          (set_JsonString (set_JsonFilePath (set_JsonInput this s) s)
             (default (_JsonString this) r))
          false
    end.
Proof.
  intros Hfile. unfold InitJsonTree, ReadJsonFile. rewrite Hfile.
  cbn -[BuildTree ParseNode ParseJsonContents].
  destruct (LoadFileToString s) as [text|[text|]]; try done.
  cbn -[BuildTree ParseNode]. rewrite ParseJsonContents_eq.
  destruct (JsonText text) as [[| | | | | |Values]|] eqn:Htext;
    try by destruct this.
  cbn -[BuildTree ParseNode]. by rewrite BuildTree_eq, top_level_Object.
Qed.

(** The flag is written before it is read. *)
Lemma InitJsonTree_flag s this b :
  InitJsonTree s (set_bValidJson this b) = InitJsonTree s this.
Proof.
  destruct (FileExists s) eqn:Hfile.
  - rewrite !InitJsonTree_file by done.
    destruct (LoadFileToString s) as [text|r]; [|done].
    cbn zeta. by destruct (JsonText text) as [[]|].
  - rewrite !InitJsonTree_raw by done. by destruct (JsonText s) as [[]|].
Qed.

Lemma InitJsonTree_idem s this :
  InitJsonTree s (InitJsonTree s this) = InitJsonTree s this.
Proof.
  destruct (FileExists s) eqn:Hfile.
  - rewrite !InitJsonTree_file by done.
    destruct (LoadFileToString s) as [text|[r|]]; [|done..].
    cbn zeta. by destruct (JsonText text) as [[]|].
  - rewrite (InitJsonTree_raw s this) by done.
    destruct (JsonText s) as [[| | | | | |Values]|] eqn:Htext;
      rewrite ?InitJsonTree_flag, InitJsonTree_raw, Htext by done; done.
Qed.

Lemma InitJsonTree_GenerateRow s this Item :
  GenerateRow Item (InitJsonTree s this) = GenerateRow Item this.
Proof.
  destruct (FileExists s) eqn:Hfile.
  - rewrite InitJsonTree_file by done.
    destruct (LoadFileToString s) as [text|r]; [|done].
    cbn zeta. by destruct (JsonText text) as [[]|].
  - rewrite InitJsonTree_raw by done. by destruct (JsonText s) as [[]|].
Qed.
End EntryFacts.

(** ** Properties of every node of a tree *)

Section NodeFacts.
Context `{Engine}.

Lemma Forall_nodes_unfold (P : FTreeItem → Prop) Item :
  Forall P (nodes Item)
  ↔ P Item ∧ Forall (λ c, Forall P (nodes c)) (ChildItems Item).
Proof.
  destruct Item as [k v t cs]. simpl.
  rewrite Forall_cons. apply and_iff_compat_l.
  induction cs as [|c cs IH]; simpl.
  - split; constructor.
  - by rewrite Forall_app, Forall_cons, IH.
Qed.

Lemma Forall_nodes_concat (P : FTreeItem → Prop) (l : list FTreeItem) :
  Forall P (concat (map nodes l)) ↔ Forall (λ c, Forall P (nodes c)) l.
Proof.
  induction l as [|c l IH]; simpl.
  - split; constructor.
  - by rewrite Forall_app, Forall_cons, IH.
Qed.

(** A property of the root of every conversion, which a keyed row keeps,
    holds of every node of every conversion. *)
Lemma ParseNode_nodes_Forall (P : FTreeItem → Prop) :
  (∀ v, P (ParseNode v)) →
  (∀ k n, P n → P (keyed k n)) →
  ∀ v, Forall P (nodes (ParseNode v)).
Proof.
  intros Hroot Hkeyed v.
  induction v as [| |s|d|b|a IH|o IH] using FJsonValue_ind';
    try (apply Forall_nodes_unfold; split; [apply Hroot|constructor]).
  - apply Forall_nodes_unfold. split; [apply Hroot|].
    rewrite ParseNode_Array. simpl.
    induction IH as [|e a He _ IHa]; simpl; [constructor|].
    apply Forall_app. split; [|done]. unfold spliced.
    destruct (ChildItems (ParseNode e)) eqn:Hc; [by repeat constructor|].
    apply Forall_nodes_unfold in He as [_ He]. by rewrite Hc in He.
  - apply Forall_nodes_unfold. split; [apply Hroot|].
    rewrite ParseNode_Object. simpl.
    induction IH as [|[k e] o He _ IHo]; simpl; constructor; [|done].
    apply Forall_nodes_unfold in He as [He1 He2].
    apply Forall_nodes_unfold. split; [by apply Hkeyed|done].
Qed.

Lemma top_level_nodes_Forall (P : FTreeItem → Prop) :
  (∀ v, P (ParseNode v)) →
  (∀ k n, P n → P (keyed k n)) →
  ∀ v, Forall P (concat (map nodes (top_level v))).
Proof.
  intros Hroot Hkeyed v. apply Forall_nodes_concat.
  pose proof (ParseNode_nodes_Forall P Hroot Hkeyed) as Hall.
  destruct v as [| |?|?|?|a|o];
    try (constructor; [apply Hall|constructor]); simpl.
  - induction a as [|e a IH]; simpl; constructor; [apply Hall|done].
  - induction o as [|[k e] o IH]; simpl; constructor; [|done].
    specialize (Hall e). apply Forall_nodes_unfold in Hall as [He1 He2].
    apply Forall_nodes_unfold. split; [by apply Hkeyed|done].
Qed.

(** Only the scalar cases of [ParseNode] write a value text. *)
Lemma ParseNode_Value_typed v :
  IsEmpty (Value (ParseNode v)) = true
  ∨ ValueType (ParseNode v)
    ∈ [EJson_String; EJson_Number; EJson_Boolean; EJson_Null].
Proof.
  destruct v as [| |s|d|b|a|o].
  - by left.
  - right. simpl. by repeat constructor.
  - right. simpl. by repeat constructor.
  - right. simpl. by repeat constructor.
  - right. simpl. by repeat constructor.
  - left. by rewrite ParseNode_Array.
  - left. by rewrite ParseNode_Object.
Qed.

Lemma ParseNode_Value_or_children v :
  ChildItems (ParseNode v) = [] ∨ IsEmpty (Value (ParseNode v)) = true.
Proof.
  destruct v as [| |s|d|b|a|o]; try by left.
  - right. by rewrite ParseNode_Array.
  - right. by rewrite ParseNode_Object.
Qed.
End NodeFacts.

(** ** The store below a call *)

Lemma take_agree {T} (σ σ' : list T) :
  length σ ≤ length σ' →
  (∀ a, a < length σ → σ' !! a = σ !! a) →
  take (length σ) σ' = σ.
Proof.
  intros Hlen Hag. apply list_eq. intros i.
  destruct (decide (i < length σ)) as [Hi|Hi].
  - rewrite lookup_take_lt by done. by apply Hag.
  - rewrite lookup_take_ge by lia. symmetry. apply lookup_ge_None. lia.
Qed.

(** ** Further properties *)

(** X1. The test [Parsed->ChildItems.Num() > 0] of the loops succeeds on
    the conversion of a value exactly when the value is an array or an
    object with at least one element: only those rows can be expanded. *)
Theorem ParseNode_children_iff_elements `{Engine} (JsonValue : FJsonValue) :
  (0 <? length (ChildItems (ParseNode JsonValue)))
  = negb (IsChildless JsonValue).
Proof. apply ParseNode_Num. Qed.

(** X2. The conversion loses, repeats and reorders no value: the value
    texts and types of the rows without children, in display order, are
    those of the scalars (and of the empty arrays and objects) of the
    document, in document order. *)
Theorem ParseNode_keeps_every_value `{Engine} (JsonValue : FJsonValue) :
  map (λ Item, (Value Item, ValueType Item)) (leaves (ParseNode JsonValue))
  = atoms JsonValue.
Proof. apply leaves_atoms. Qed.

(** X3. The height of the tree [ParseNode] returns is [levels] of the
    document: 0 for a scalar, a value of type none, the empty array and
    the empty object; one more than the greatest height among the member
    values for any other object; the greatest height among the elements,
    and 1 at least, for any other array.  So an array adds a level only
    above elements that are all childless: directly above a non-empty
    array or object it adds none. *)
Theorem ParseNode_height_counts_objects `{Engine} (JsonValue : FJsonValue) :
  height (ParseNode JsonValue) = levels JsonValue.
Proof. apply height_levels. Qed.

(** X4. The children of the conversion of an array, or of an object, made
    of two parts are the children for the first part followed by those
    for the second. *)
Theorem ParseNode_children_of_concatenation `{Engine}
    (Array1 Array2 : list FJsonValue)
    (Values1 Values2 : list (string * FJsonValue)) :
  ChildItems (ParseNode (FJsonValueArray (Array1 ++ Array2)))
  = ChildItems (ParseNode (FJsonValueArray Array1))
    ++ ChildItems (ParseNode (FJsonValueArray Array2))
  ∧ ChildItems (ParseNode (FJsonValueObject (Values1 ++ Values2)))
    = ChildItems (ParseNode (FJsonValueObject Values1))
      ++ ChildItems (ParseNode (FJsonValueObject Values2)).
Proof.
  rewrite !ParseNode_Array, !ParseNode_Object. simpl.
  by rewrite !map_app, concat_app.
Qed.

(** X5. For a root object, the rows [BuildTree] leaves are the children
    [ParseNode] gives the same object: the copy of the object loop in
    [BuildTree] agrees with the original. *)
Theorem BuildTree_object_rows_are_ParseNode_children `{Engine}
    (Values : list (string * FJsonValue)) (this : UJsonTreeViewerWidget) :
  _TreeItems (BuildTree (FJsonValueObject Values) this)
  = ChildItems (ParseNode (FJsonValueObject Values)).
Proof. by rewrite BuildTree_Object, ParseNode_Object. Qed.

(** X6. [BuildTree] writes [_TreeItems] and no other member, and a second
    [BuildTree] replaces the first one whole: the widget is as if only
    the second had run. *)
Theorem BuildTree_replaces `{Engine} (JsonValue1 JsonValue2 : FJsonValue)
    (this : UJsonTreeViewerWidget) :
  BuildTree JsonValue1 this
  = mkWidget (_bValidJson this) (_JsonFilePath this) (_JsonString this)
      (_JsonValue this) (_TreeItems (BuildTree JsonValue1 this))
      (JsonInput this) (KeyColor this) (KeyAtColor this)
      (StringValueColor this) (BooleanValueColor this)
      (NumericValueColor this) (NullValueColor this)
  ∧ BuildTree JsonValue2 (BuildTree JsonValue1 this)
    = BuildTree JsonValue2 this.
Proof.
  split; [apply BuildTree_only_TreeItems|by rewrite !BuildTree_eq].
Qed.

(** X7. Whatever its input, [InitJsonTree] either leaves the rows as they
    were, or marks the widget valid, stores a root object in [_JsonValue]
    and leaves as rows the children of the conversion of that object: no
    array and no scalar ever reaches [BuildTree] from here. *)
Theorem InitJsonTree_rows_left_or_from_object `{Engine}
    (JsonPathorString : string) (this : UJsonTreeViewerWidget) :
  _TreeItems (InitJsonTree JsonPathorString this) = _TreeItems this
  ∨ ∃ Values,
      _bValidJson (InitJsonTree JsonPathorString this) = true
      ∧ _JsonValue (InitJsonTree JsonPathorString this)
        = Some (FJsonValueObject Values)
      ∧ _TreeItems (InitJsonTree JsonPathorString this)
        = ChildItems (ParseNode (FJsonValueObject Values)).
Proof.
  destruct (FileExists JsonPathorString) eqn:Hfile.
  - rewrite InitJsonTree_file by done.
    destruct (LoadFileToString JsonPathorString) as [text|r]; [|by left].
    cbn zeta.
    destruct (JsonText text) as [[| | | | | |Values]|]; try by left.
    right. by exists Values.
  - rewrite InitJsonTree_raw by done.
    destruct (JsonText JsonPathorString) as [[| | | | | |Values]|];
      try by left.
    right. by exists Values.
Qed.

(** X8. A raw text that is no file and whose root is an object is
    accepted: the widget is valid, the text is recorded as [JsonInput]
    and [_JsonString], the object as [_JsonValue], the rows are the
    children of its conversion, and [_JsonFilePath] keeps the path of
    whatever file was loaded before. *)
Theorem InitJsonTree_accepts_raw_object `{Engine} (JsonPathorString : string)
    (Values : list (string * FJsonValue)) (this : UJsonTreeViewerWidget) :
  FileExists JsonPathorString = false →
  JsonText JsonPathorString = Some (FJsonValueObject Values) →
  _bValidJson (InitJsonTree JsonPathorString this) = true
  ∧ JsonInput (InitJsonTree JsonPathorString this) = JsonPathorString
  ∧ _JsonString (InitJsonTree JsonPathorString this) = JsonPathorString
  ∧ _JsonFilePath (InitJsonTree JsonPathorString this) = _JsonFilePath this
  ∧ _JsonValue (InitJsonTree JsonPathorString this)
    = Some (FJsonValueObject Values)
  ∧ _TreeItems (InitJsonTree JsonPathorString this)
    = ChildItems (ParseNode (FJsonValueObject Values)).
Proof. intros Hfile Htext. by rewrite InitJsonTree_raw, Htext. Qed.

Lemma InitJsonTree_accepts_raw_object_witness :
  _bValidJson (InitJsonTree (H := demo_engine) demo_text demo_widget) = true
  ∧ JsonInput (InitJsonTree (H := demo_engine) demo_text demo_widget)
    = demo_text
  ∧ _JsonString (InitJsonTree (H := demo_engine) demo_text demo_widget)
    = demo_text
  ∧ _JsonFilePath (InitJsonTree (H := demo_engine) demo_text demo_widget)
    = _JsonFilePath demo_widget
  ∧ _JsonValue (InitJsonTree (H := demo_engine) demo_text demo_widget)
    = Some demo_document
  ∧ _TreeItems (InitJsonTree (H := demo_engine) demo_text demo_widget)
    = ChildItems (ParseNode (H := demo_engine) demo_document).
Proof.
  apply (InitJsonTree_accepts_raw_object (H := demo_engine) demo_text
           [("a", FJsonValueNull);
            ("b", FJsonValueArray
                    [FJsonValueBoolean true;
                     FJsonValueArray [FJsonValueNumber 42]])]
           demo_widget); reflexivity.
Defined.

(** X9. The path of a readable file whose text has an object at its root
    is accepted: the widget is valid, the path is recorded as [JsonInput]
    and [_JsonFilePath], the text as [_JsonString], the object as
    [_JsonValue], and the rows are the children of its conversion. *)
Theorem InitJsonTree_accepts_object_file `{Engine} (JsonPathorString : string)
    (Result : string) (Values : list (string * FJsonValue))
    (this : UJsonTreeViewerWidget) :
  FileExists JsonPathorString = true →
  LoadFileToString JsonPathorString = Loaded Result →
  JsonText Result = Some (FJsonValueObject Values) →
  _bValidJson (InitJsonTree JsonPathorString this) = true
  ∧ JsonInput (InitJsonTree JsonPathorString this) = JsonPathorString
  ∧ _JsonFilePath (InitJsonTree JsonPathorString this) = JsonPathorString
  ∧ _JsonString (InitJsonTree JsonPathorString this) = Result
  ∧ _JsonValue (InitJsonTree JsonPathorString this)
    = Some (FJsonValueObject Values)
  ∧ _TreeItems (InitJsonTree JsonPathorString this)
    = ChildItems (ParseNode (FJsonValueObject Values)).
Proof.
  intros Hfile Hload Htext. rewrite InitJsonTree_file, Hload by done.
  cbn zeta. by rewrite Htext.
Qed.

Lemma InitJsonTree_accepts_object_file_witness :
  _bValidJson (InitJsonTree (H := demo_engine) "tree.json" demo_widget) = true
  ∧ JsonInput (InitJsonTree (H := demo_engine) "tree.json" demo_widget)
    = "tree.json"
  ∧ _JsonFilePath (InitJsonTree (H := demo_engine) "tree.json" demo_widget)
    = "tree.json"
  ∧ _JsonString (InitJsonTree (H := demo_engine) "tree.json" demo_widget)
    = demo_text
  ∧ _JsonValue (InitJsonTree (H := demo_engine) "tree.json" demo_widget)
    = Some demo_document
  ∧ _TreeItems (InitJsonTree (H := demo_engine) "tree.json" demo_widget)
    = ChildItems (ParseNode (H := demo_engine) demo_document).
Proof.
  apply (InitJsonTree_accepts_object_file (H := demo_engine) "tree.json"
           demo_text
           [("a", FJsonValueNull);
            ("b", FJsonValueArray
                    [FJsonValueBoolean true;
                     FJsonValueArray [FJsonValueNumber 42]])]
           demo_widget); reflexivity.
Defined.

(** X10. A JSON text whose root is an array, given raw or as the contents
    of a file, is never displayed: [_JsonValue] and the rows stay as they
    were, although [BuildTree] has a branch for a root array. *)
Theorem InitJsonTree_refuses_root_array `{Engine}
    (JsonPathorString JsonString : string) (Array : list FJsonValue)
    (this : UJsonTreeViewerWidget) :
  JsonText JsonString = Some (FJsonValueArray Array) →
  (FileExists JsonPathorString = false ∧ JsonString = JsonPathorString)
  ∨ (FileExists JsonPathorString = true
     ∧ LoadFileToString JsonPathorString = Loaded JsonString) →
  _JsonValue (InitJsonTree JsonPathorString this) = _JsonValue this
  ∧ _TreeItems (InitJsonTree JsonPathorString this) = _TreeItems this.
Proof.
  intros Htext [[Hfile ->]|[Hfile Hload]].
  - by rewrite InitJsonTree_raw, Htext.
  - rewrite InitJsonTree_file, Hload by done. cbn zeta. by rewrite Htext.
Qed.

Lemma InitJsonTree_refuses_root_array_witness :
  _JsonValue (InitJsonTree (H := demo_engine) "[null]" demo_widget)
  = _JsonValue demo_widget
  ∧ _TreeItems (InitJsonTree (H := demo_engine) "[null]" demo_widget)
    = _TreeItems demo_widget.
Proof.
  apply (InitJsonTree_refuses_root_array (H := demo_engine) "[null]" "[null]"
           [FJsonValueNull] demo_widget); [reflexivity|].
  left. split; reflexivity.
Defined.

(** X11. [InitJsonTree] is idempotent: a second call with the same input
    leaves the widget as the first call left it. *)
Theorem InitJsonTree_idempotent `{Engine} (JsonPathorString : string)
    (this : UJsonTreeViewerWidget) :
  InitJsonTree JsonPathorString (InitJsonTree JsonPathorString this)
  = InitJsonTree JsonPathorString this.
Proof. apply InitJsonTree_idem. Qed.

(** X12. A file that can be read but whose text [ParseJsonContents]
    fails on leaves the widget marked valid without a tree of it: the
    path and the text are recorded, [_bValidJson] is true, and
    [_JsonValue] and the rows are those of the earlier input. *)
Theorem InitJsonTree_valid_flag_without_tree `{Engine}
    (JsonPathorString Result : string) (this : UJsonTreeViewerWidget) :
  FileExists JsonPathorString = true →
  LoadFileToString JsonPathorString = Loaded Result →
  IsValidJson Result = false →
  _bValidJson (InitJsonTree JsonPathorString this) = true
  ∧ JsonInput (InitJsonTree JsonPathorString this) = JsonPathorString
  ∧ _JsonFilePath (InitJsonTree JsonPathorString this) = JsonPathorString
  ∧ _JsonString (InitJsonTree JsonPathorString this) = Result
  ∧ _JsonValue (InitJsonTree JsonPathorString this) = _JsonValue this
  ∧ _TreeItems (InitJsonTree JsonPathorString this) = _TreeItems this.
Proof.
  intros Hfile Hload Hinvalid. rewrite InitJsonTree_file, Hload by done.
  cbn zeta. rewrite IsValidJson_eq in Hinvalid.
  by destruct (JsonText Result) as [[]|].
Qed.

Lemma InitJsonTree_valid_flag_without_tree_witness :
  _bValidJson (InitJsonTree (H := demo_engine) "broken.json" demo_widget)
  = true
  ∧ JsonInput (InitJsonTree (H := demo_engine) "broken.json" demo_widget)
    = "broken.json"
  ∧ _JsonFilePath (InitJsonTree (H := demo_engine) "broken.json" demo_widget)
    = "broken.json"
  ∧ _JsonString (InitJsonTree (H := demo_engine) "broken.json" demo_widget)
    = "{"
  ∧ _JsonValue (InitJsonTree (H := demo_engine) "broken.json" demo_widget)
    = _JsonValue demo_widget
  ∧ _TreeItems (InitJsonTree (H := demo_engine) "broken.json" demo_widget)
    = _TreeItems demo_widget.
Proof.
  apply (InitJsonTree_valid_flag_without_tree (H := demo_engine)
           "broken.json" "{" demo_widget); reflexivity.
Defined.

(** X13. The path of a file that cannot be read is recorded all the same,
    as [JsonInput] and [_JsonFilePath]; the widget is marked invalid,
    [_JsonString] holds what the failed load left in it, and [_JsonValue]
    and the rows are those of the earlier input. *)
Theorem InitJsonTree_unreadable_file `{Engine} (JsonPathorString : string)
    (Result : option string) (this : UJsonTreeViewerWidget) :
  FileExists JsonPathorString = true →
  LoadFileToString JsonPathorString = LoadFailed Result →
  _bValidJson (InitJsonTree JsonPathorString this) = false
  ∧ JsonInput (InitJsonTree JsonPathorString this) = JsonPathorString
  ∧ _JsonFilePath (InitJsonTree JsonPathorString this) = JsonPathorString
  ∧ _JsonString (InitJsonTree JsonPathorString this)
    = default (_JsonString this) Result
  ∧ _JsonValue (InitJsonTree JsonPathorString this) = _JsonValue this
  ∧ _TreeItems (InitJsonTree JsonPathorString this) = _TreeItems this.
Proof.
  intros Hfile Hload. by rewrite InitJsonTree_file, Hload.
Qed.

Lemma InitJsonTree_unreadable_file_witness :
  _bValidJson (InitJsonTree (H := demo_engine) "locked.json" demo_widget)
  = false
  ∧ JsonInput (InitJsonTree (H := demo_engine) "locked.json" demo_widget)
    = "locked.json"
  ∧ _JsonFilePath (InitJsonTree (H := demo_engine) "locked.json" demo_widget)
    = "locked.json"
  ∧ _JsonString (InitJsonTree (H := demo_engine) "locked.json" demo_widget)
    = default (_JsonString demo_widget) None
  ∧ _JsonValue (InitJsonTree (H := demo_engine) "locked.json" demo_widget)
    = _JsonValue demo_widget
  ∧ _TreeItems (InitJsonTree (H := demo_engine) "locked.json" demo_widget)
    = _TreeItems demo_widget.
Proof.
  apply (InitJsonTree_unreadable_file (H := demo_engine)
           "locked.json" None demo_widget); reflexivity.
Defined.

(** X14. [InitJsonTree] changes no colour: after it, whatever the input,
    [GenerateRow] draws any item as before and
    [GetValueColorFromJsonType] answers as before. *)
Theorem InitJsonTree_keeps_row_rendering `{Engine}
    (JsonPathorString : string) (this : UJsonTreeViewerWidget)
    (Item : FTreeItem) (Type_ : EJson) :
  GenerateRow Item (InitJsonTree JsonPathorString this)
  = GenerateRow Item this
  ∧ GetValueColorFromJsonType Type_ (InitJsonTree JsonPathorString this)
    = GetValueColorFromJsonType Type_ this.
Proof.
  split; [apply InitJsonTree_GenerateRow|].
  pose proof (InitJsonTree_GenerateRow JsonPathorString this
                (FTreeItem_Type Type_)) as Hrow.
  apply (f_equal (λ r, ColorAndOpacity (ValueSlot r))) in Hrow.
  simpl in Hrow. by injection Hrow.
Qed.

(** X15. After an input that [InitJsonTree] recorded, a file path or a
    raw text it accepted, [RebuildWidget] changes nothing: it parses the
    recorded input again and arrives at the same widget. *)
Theorem RebuildWidget_after_recorded_input `{Engine}
    (JsonPathorString : string) (this : UJsonTreeViewerWidget) :
  FileExists JsonPathorString = true ∨ IsValidJson JsonPathorString = true →
  RebuildWidget (InitJsonTree JsonPathorString this)
  = InitJsonTree JsonPathorString this.
Proof.
  intros Hrecorded. unfold RebuildWidget.
  assert (JsonInput (InitJsonTree JsonPathorString this) = JsonPathorString)
    as ->; [|apply InitJsonTree_idem].
  destruct (FileExists JsonPathorString) eqn:Hfile.
  - rewrite InitJsonTree_file by done.
    destruct (LoadFileToString JsonPathorString) as [text|r]; [|done].
    cbn zeta. by destruct (JsonText text) as [[]|].
  - destruct Hrecorded as [?|Hvalid]; [done|].
    rewrite InitJsonTree_raw by done. rewrite IsValidJson_eq in Hvalid.
    by destruct (JsonText JsonPathorString) as [[]|].
Qed.

Lemma RebuildWidget_after_recorded_input_witness :
  RebuildWidget (H := demo_engine)
    (InitJsonTree (H := demo_engine) "tree.json" demo_widget)
  = InitJsonTree (H := demo_engine) "tree.json" demo_widget.
Proof.
  apply (RebuildWidget_after_recorded_input (H := demo_engine)
           "tree.json" demo_widget).
  left. reflexivity.
Defined.

(** X16. A raw input that is refused is forgotten: [JsonInput] still
    names the earlier input, so [RebuildWidget] after the refusal does
    what it would have done before it. *)
Theorem RebuildWidget_forgets_refused_input `{Engine}
    (JsonPathorString : string) (this : UJsonTreeViewerWidget) :
  FileExists JsonPathorString = false →
  IsValidJson JsonPathorString = false →
  JsonInput (InitJsonTree JsonPathorString this) = JsonInput this
  ∧ RebuildWidget (InitJsonTree JsonPathorString this) = RebuildWidget this.
Proof.
  intros Hfile Hinvalid. rewrite InitJsonTree_raw by done.
  rewrite IsValidJson_eq in Hinvalid. unfold RebuildWidget.
  destruct (JsonText JsonPathorString) as [[]|]; try done;
    (split; [done|apply InitJsonTree_flag]).
Qed.

Lemma RebuildWidget_forgets_refused_input_witness :
  JsonInput (InitJsonTree (H := demo_engine) "no such thing" demo_widget)
  = JsonInput demo_widget
  ∧ RebuildWidget (H := demo_engine)
      (InitJsonTree (H := demo_engine) "no such thing" demo_widget)
    = RebuildWidget (H := demo_engine) demo_widget.
Proof.
  apply (RebuildWidget_forgets_refused_input (H := demo_engine)
           "no such thing" demo_widget); reflexivity.
Defined.

(** X17. [ParseNode] and [BuildTree] write to no node object that was in
    the store before the call: an earlier tree that something still
    points to stays as it was. *)
Theorem calls_leave_old_objects `{Engine} (JsonValue : FJsonValue)
    (σ : Shared.Store) (Old : list Shared.addr) :
  take (length σ) (Shared.ParseNode JsonValue σ).2 = σ
  ∧ take (length σ) (Shared.BuildTree JsonValue Old σ).2 = σ.
Proof.
  split.
  - destruct (ParseNode_owns_all JsonValue σ) as (Hlen & Hag & _).
    apply take_agree; [lia|done].
  - destruct (BuildTree_owns JsonValue Old σ) as (Hlen & Hag & _).
    by apply take_agree.
Qed.

(** X18. In the rows [BuildTree] leaves, at any depth, a row that has
    children shows no value: [GenerateRow] collapses its value text. *)
Theorem rows_with_children_show_no_value `{Engine} (JsonValue : FJsonValue)
    (this that : UJsonTreeViewerWidget) :
  Forall
    (λ Item,
       GetChildren Item [] = []
       ∨ Visibility (ValueSlot (GenerateRow Item that)) = Collapsed)
    (concat (map nodes (_TreeItems (BuildTree JsonValue this)))).
Proof.
  rewrite BuildTree_top_level. apply top_level_nodes_Forall.
  - intros v. destruct (ParseNode_Value_or_children v) as [Hc|Hv];
      [by left|right]. simpl. by rewrite Hv.
  - by intros k n Hn.
Qed.

(** X19. In the rows [BuildTree] leaves, at any depth, a value that
    [GenerateRow] shows belongs to a string, a number, a boolean or null
    and gets the colour configured for that type: the foreground colour
    that [GetValueColorFromJsonType] keeps for the other types is never
    seen on a value. *)
Theorem shown_values_have_configured_colours `{Engine}
    (JsonValue : FJsonValue) (this that : UJsonTreeViewerWidget) :
  Forall
    (λ Item,
       Visibility (ValueSlot (GenerateRow Item that)) = Collapsed
       ∨ (ValueType Item, ColorAndOpacity (ValueSlot (GenerateRow Item that)))
         ∈ [(EJson_String, Some (StringValueColor that));
            (EJson_Number, Some (NumericValueColor that));
            (EJson_Boolean, Some (BooleanValueColor that));
            (EJson_Null, Some (NullValueColor that))])
    (concat (map nodes (_TreeItems (BuildTree JsonValue this)))).
Proof.
  rewrite BuildTree_top_level. apply top_level_nodes_Forall.
  - intros v. destruct (ParseNode_Value_typed v) as [Hv|Ht].
    + left. simpl. by rewrite Hv.
    + right. simpl. revert Ht. generalize (ValueType (ParseNode v)).
      intros ty Ht.
      repeat (apply elem_of_cons in Ht as [->|Ht]; [by repeat constructor|]).
      by apply elem_of_nil in Ht.
  - by intros k n Hn.
Qed.

(** ** Where keys come from *)

Section KeyFacts.
Context `{Engine}.

Lemma spliced_nodes_Forall (Q : FTreeItem → Prop) Parsed :
  Forall Q (nodes Parsed) → Forall (λ c, Forall Q (nodes c)) (spliced Parsed).
Proof.
  intros HQ. unfold spliced.
  destruct (ChildItems Parsed) eqn:Hc; [by repeat constructor|].
  apply Forall_nodes_unfold in HQ as [_ HQ]. by rewrite Hc in HQ.
Qed.

Lemma keyed_nodes_Forall (Q : FTreeItem → Prop) k Parsed :
  Q (keyed k Parsed) → Forall Q (nodes Parsed) →
  Forall Q (nodes (keyed k Parsed)).
Proof.
  intros Hk [_ HQ]%Forall_nodes_unfold.
  apply Forall_nodes_unfold. by split.
Qed.

Lemma keys_weaken (K K' : list string) (l : list FTreeItem) :
  (∀ x, x ∈ K → x ∈ K') →
  Forall (λ n, IsEmpty (Key n) = true ∨ Key n ∈ K) l →
  Forall (λ n, IsEmpty (Key n) = true ∨ Key n ∈ K') l.
Proof.
  intros Hsub HK. eapply Forall_impl; [exact HK|].
  intros n [?|?]; [by left|right; auto].
Qed.

Lemma keys_array_children (l : list FJsonValue) :
  Forall (λ e, Forall (λ n, IsEmpty (Key n) = true
                            ∨ Key n ∈ member_keys e)
                 (nodes (ParseNode e))) l →
  ∀ K1,
    Forall (λ c, Forall (λ n, IsEmpty (Key n) = true
                              ∨ Key n ∈ K1 ++ concat (map member_keys l))
                   (nodes c))
      (concat (map (λ e, spliced (ParseNode e)) l)).
Proof.
  induction 1 as [|e l He _ IH]; intros K1; [constructor|].
  cbn [map concat]. apply Forall_app. split.
  - apply spliced_nodes_Forall. eapply keys_weaken; [|exact He].
    intros x Hx. rewrite !elem_of_app. auto.
  - rewrite app_assoc. apply IH.
Qed.

Lemma keys_object_children (l : list (string * FJsonValue)) :
  Forall (λ kv, Forall (λ n, IsEmpty (Key n) = true
                             ∨ Key n ∈ member_keys kv.2)
                  (nodes (ParseNode kv.2))) l →
  ∀ K1,
    Forall (λ c, Forall (λ n, IsEmpty (Key n) = true
                              ∨ Key n ∈ K1 ++ concat
                                  (map (λ kv, kv.1 :: member_keys kv.2) l))
                   (nodes c))
      (map (λ kv, keyed kv.1 (ParseNode kv.2)) l).
Proof.
  induction 1 as [|[k e] l He _ IH]; intros K1; [constructor|].
  cbn [map concat fst snd] in *. constructor.
  - apply keyed_nodes_Forall.
    + right. simpl. rewrite !elem_of_app, elem_of_cons. auto.
    + eapply keys_weaken; [|exact He].
      intros x Hx. rewrite !elem_of_app, elem_of_cons. auto.
  - specialize (IH (K1 ++ k :: member_keys e)).
    by rewrite <- app_assoc in IH.
Qed.

Lemma ParseNode_keys v :
  Forall (λ n, IsEmpty (Key n) = true ∨ Key n ∈ member_keys v)
    (nodes (ParseNode v)).
Proof.
  induction v as [| |s|d|b|a IH|o IH] using FJsonValue_ind';
    try (apply Forall_nodes_unfold; split; [by left|constructor]).
  - rewrite ParseNode_Array. apply Forall_nodes_unfold.
    split; [by left|]. apply (keys_array_children a IH []).
  - rewrite ParseNode_Object. apply Forall_nodes_unfold.
    split; [by left|]. apply (keys_object_children o IH []).
Qed.
End KeyFacts.

(** X20. Every row of a conversion either has no key or has the key of
    an object member of the document; the root has none.  So the elements
    of an array get no label of their own, no index either. *)
Theorem ParseNode_keys_are_member_keys `{Engine} (JsonValue : FJsonValue) :
  Key (ParseNode JsonValue) = EmptyString
  ∧ Forall
      (λ Item, IsEmpty (Key Item) = true ∨ Key Item ∈ member_keys JsonValue)
      (nodes (ParseNode JsonValue)).
Proof.
  split; [|apply ParseNode_keys].
  destruct JsonValue; try done.
  - by rewrite ParseNode_Array.
  - by rewrite ParseNode_Object.
Qed.
